(** * roman_datamodels.core._base: BaseDataModel

    A shallow embedding of [BaseDataModel] (src/roman_datamodels/core/_base.py):
    the tree serializer [to_asdf_tree], the flattener [flat_items], the default
    synthesizer [make_default], the validation-pause scope [pause_validation]
    and item assignment [__setitem__].

    Python values are an inductive type, exceptions are a [result], the
    mutable part of the interpreter (the class-level [model_config] dicts, the
    instances and the warnings that were emitted) is an explicit [World]
    threaded through a small state-and-exception monad. *)

From stdpp Require Import gmap strings list pretty.

Set Warnings "-register-all".
Open Scope string_scope.

(** ** Python values *)

(** The values a field of a model instance can hold.  [VEnum] is a member of
    an [Enum] class together with its [.value]; [VModel] is an instance of a
    [BaseDataModel] subclass, with [tagged] telling whether it is also an
    instance of [DataModel] (a tagged model), and [fields] the items that
    iterating the instance yields (declared fields, then extras);
    [VObject] is any other object (an ndarray, a Time, an astropy model). *)
Inductive value : Type :=
| VNone
| VBool (b : bool)
| VInt (z : Z)
| VStr (s : string)
| VEnum (cls member : string) (val : value)
| VList (items : list value)
| VDict (items : list (value * value))
| VModel (cls : string) (tagged : bool) (fields : list (string * value))
| VObject (repr : string).

(** Equality of values, as used for dict keys. *)
Fixpoint value_eqb (a b : value) {struct a} : bool :=
  match a, b with
  | VNone, VNone => true
  | VBool x, VBool y => Bool.eqb x y
  | VInt x, VInt y => Z.eqb x y
  | VStr x, VStr y => String.eqb x y
  | VEnum c m v, VEnum c' m' v' =>
      String.eqb c c' && String.eqb m m' && value_eqb v v'
  | VList xs, VList ys =>
      (fix go (xs ys : list value) {struct xs} : bool :=
         match xs, ys with
         | [], [] => true
         | x :: xs', y :: ys' => value_eqb x y && go xs' ys'
         | _, _ => false
         end) xs ys
  | VDict xs, VDict ys =>
      (fix go (xs ys : list (value * value)) {struct xs} : bool :=
         match xs, ys with
         | [], [] => true
         | (k, x) :: xs', (k', y) :: ys' =>
             value_eqb k k' && value_eqb x y && go xs' ys'
         | _, _ => false
         end) xs ys
  | VModel c t xs, VModel c' t' ys =>
      String.eqb c c' && Bool.eqb t t' &&
      (fix go (xs ys : list (string * value)) {struct xs} : bool :=
         match xs, ys with
         | [], [] => true
         | (n, x) :: xs', (n', y) :: ys' =>
             String.eqb n n' && value_eqb x y && go xs' ys'
         | _, _ => false
         end) xs ys
  | VObject x, VObject y => String.eqb x y
  | _, _ => false
  end.

(** ** Exceptions *)

Inductive exn : Type :=
| ValidationError (loc : string)
| TypeError (msg : string)
| ValueError (msg : string).

Inductive result (A : Type) : Type :=
| Ok (a : A)
| Raise (e : exn).
Arguments Ok {A} a.
Arguments Raise {A} e.

Definition rbind {A B : Type} (r : result A) (k : A -> result B) : result B :=
  match r with
  | Ok a => k a
  | Raise e => Raise e
  end.

Fixpoint mapM {A B : Type} (f : A -> result B) (l : list A) : result (list B) :=
  match l with
  | [] => Ok []
  | x :: l' =>
      match f x with
      | Ok y =>
          match mapM f l' with
          | Ok ys => Ok (y :: ys)
          | Raise e => Raise e
          end
      | Raise e => Raise e
      end
  end.

Declare Scope result_scope.
Delimit Scope result_scope with result.
Notation "x <- c ;; k" := (rbind c (fun x => k))
  (at level 100, c at next level, right associativity) : result_scope.

(** ** Dicts

    A Python dict is an association list in insertion order whose keys are
    pairwise distinct.  [dict_set] is [d[k] = v]: an existing key keeps its
    position and gets the new value, a new key goes to the end. *)

Fixpoint dict_get {V : Type} (k : string) (d : list (string * V)) : option V :=
  match d with
  | [] => None
  | (k', v) :: d' => if String.eqb k k' then Some v else dict_get k d'
  end.

Fixpoint dict_set {V : Type} (k : string) (v : V) (d : list (string * V))
  : list (string * V) :=
  match d with
  | [] => [(k, v)]
  | (k', v') :: d' =>
      if String.eqb k k' then (k, v) :: d' else (k', v') :: dict_set k v d'
  end.

(** [{k: v for k, v in items}] *)
Definition dict_of_items {V : Type} (items : list (string * V))
  : list (string * V) :=
  fold_left (fun d kv => dict_set (fst kv) (snd kv) d) items [].

(** The same two operations for a dict whose keys are arbitrary values. *)
Fixpoint vdict_get (k : value) (d : list (value * value)) : option value :=
  match d with
  | [] => None
  | (k', v) :: d' => if value_eqb k k' then Some v else vdict_get k d'
  end.

Fixpoint vdict_set (k v : value) (d : list (value * value))
  : list (value * value) :=
  match d with
  | [] => [(k, v)]
  | (k', v') :: d' =>
      if value_eqb k k' then (k, v) :: d' else (k', v') :: vdict_set k v d'
  end.

(** A [dict[str, Any]] as a value. *)
Definition py_dict (items : list (string * value)) : value :=
  VDict (map (fun kv => (VStr (fst kv), snd kv)) items).

(** The keyword arguments of a call [f] with [d] unpacked: the keywords
    must be strings. *)
Fixpoint keywords (d : list (value * value)) : result (list (string * value)) :=
  match d with
  | [] => Ok []
  | (VStr k, v) :: d' =>
      (rest <- keywords d' ;; Ok ((k, v) :: rest))%result
  | _ :: _ => Raise (TypeError "keywords must be strings")
  end.

(** ** Schemas

    What the code reads of a model class ([cls.model_fields]) and of a field
    ([FieldInfo]): its static [default], and of its annotation the three
    things the code asks for: [get_origin(annotation)],
    [get_args(annotation)] and [annotation_type(annotation)], the leaf type
    the resolver of [._utils] finds. *)

(** [field.default]: [PydanticUndefined] when the schema gives none. *)
Inductive default_value : Type :=
| PydanticUndefined
| Default (v : value).

(** [get_origin(annotation)] when it is not [None]: a subclass of [dict], a
    subclass of [list], another class, or a typing form that is not a class
    (such as [Union]). *)
Inductive origin : Type :=
| OriginDict
| OriginList
| OriginClass (name : string)
| OriginForm (name : string).

(** A [pytype] is a class: [int], [float], [str], [bool], a subclass of
    [Enum] with its members in order, a subclass of [BaseDataModel], or any
    other class.  Modelled from the spec: [annotation_type], which the module
    imports from [._utils], returns the concrete leaf type of an annotation,
    a class.  An argument of a generic annotation ([get_args]) is a class or
    an object that is no class: another generic alias such as [List[int]],
    a union. *)
Inductive pytype : Type :=
| TInt
| TFloat
| TStr
| TBool
| TEnum (name : string) (first : string * value) (rest : list (string * value))
| TModel (m : ModelClass)
| TClass (name : string)
with ModelClass : Type :=
| MkModel (name : string) (tagged : bool) (model_fields : list (string * FieldInfo))
with FieldInfo : Type :=
| MkFieldInfo (default : default_value) (get_origin : option origin)
              (get_args : list type_arg) (annotation_type : pytype)
with type_arg : Type :=
| ArgClass (t : pytype)
| ArgAlias (name : string).

Definition cls_name (cls : ModelClass) : string :=
  match cls with MkModel name _ _ => name end.
Definition cls_tagged (cls : ModelClass) : bool :=
  match cls with MkModel _ tagged _ => tagged end.
Definition cls_fields (cls : ModelClass) : list (string * FieldInfo) :=
  match cls with MkModel _ _ fields => fields end.
Definition fi_default (field : FieldInfo) : default_value :=
  match field with MkFieldInfo d _ _ _ => d end.
Definition fi_origin (field : FieldInfo) : option origin :=
  match field with MkFieldInfo _ o _ _ => o end.
Definition fi_args (field : FieldInfo) : list type_arg :=
  match field with MkFieldInfo _ _ a _ => a end.
Definition fi_type (field : FieldInfo) : pytype :=
  match field with MkFieldInfo _ _ _ t => t end.

(** [isclass(origin)] *)
Definition isclass (o : option origin) : bool :=
  match o with
  | Some OriginDict | Some OriginList | Some (OriginClass _) => true
  | Some (OriginForm _) | None => false
  end.

(** ** Collaborators

    Code the module calls and that lives outside it. *)
Class Collaborators : Type := {
  (** [._utils.field_name]: the external name (alias) of a field *)
  field_name : string -> string;
  (** [.adaptors.get_adaptor], an adaptor being given by its
      [make_default], which takes the keyword arguments *)
  get_adaptor : FieldInfo -> option (list (string * value) -> value);
  (** pydantic's validator of a field: [Some v'] is the validated value,
      [None] a validation error *)
  validate : FieldInfo -> value -> option value;
  (** [str(x)] for a value that is not [None], a bool, an int or a str *)
  str_object : value -> string;
  (** [bool(x)] for an enum member, a model or another object: what the
      [__bool__] or [__len__] of its class gives, which can raise (an
      ndarray of several elements) *)
  bool_object : value -> result bool;
}.

Section Embedding.
Context `{Collaborators}.
Local Open Scope result_scope.

(** ** to_asdf_tree *)

(** The nested function [recurse_tree] of [to_asdf_tree]; the branch of a
    model that is not tagged is [field.to_asdf_tree()], see
    [recurse_tree_model]. *)
Fixpoint recurse_tree (field : value) {struct field} : value :=
  match field with
  | VModel _ tagged fields =>
      if tagged then field
      else
        py_dict
          (dict_of_items
             (map (fun '(name, v) => (field_name name, recurse_tree v)) fields))
  | VDict items => VDict (map (fun '(key, v) => (key, recurse_tree v)) items)
  | VList items => VList (map recurse_tree items)
  | VEnum _ _ val => val
  | _ => field
  end.

(** [self.to_asdf_tree()], [self] being given by the items of [dict(self)]. *)
Definition to_asdf_tree (self : list (string * value)) : list (string * value) :=
  let tree := map (fun '(name, field) => (name, recurse_tree field)) self in
  dict_of_items (map (fun '(name, field) => (field_name name, field)) tree).

(** ** flat_items *)

(** [str(x)] *)
Definition py_str (x : value) : string :=
  match x with
  | VNone => "None"
  | VBool true => "True"
  | VBool false => "False"
  | VInt z => pretty z
  | VStr s => s
  | _ => str_object x
  end.

(** [".".join(str(name) for name in path)] *)
Definition join_path (path : list value) : string :=
  String.concat "." (map py_str path).

(** The nested generator [recurse] of [flat_items], as the list of the pairs
    it yields. *)
Fixpoint recurse (flatten_lists : bool) (field : value) (path : list value)
  {struct field} : list (string * value) :=
  match field with
  | VModel _ _ fields =>
      concat (map (fun '(name, v) =>
                     recurse flatten_lists v (path ++ [VStr name])) fields)
  | VDict items =>
      concat (map (fun '(key, v) =>
                     recurse flatten_lists v (path ++ [key])) items)
  | VList items =>
      if flatten_lists then
        (fix enumerate (index : nat) (l : list value) {struct l}
           : list (string * value) :=
           match l with
           | [] => []
           | v :: l' =>
               (recurse flatten_lists v (path ++ [VInt (Z.of_nat index)])
                ++ enumerate (S index) l')%list
           end) 0%nat items
      else [(join_path path, field)]
  | VEnum _ _ val => recurse flatten_lists val path
  | _ => [(join_path path, field)]
  end.

Definition flat_items (self : value) (flatten_lists : bool)
  : list (string * value) :=
  recurse flatten_lists self [].

(** ** pydantic

    What [BaseModel] does under the [model_config] of [BaseDataModel]:
    [populate_by_name=True] (a field is read under its alias, else under its
    name) and [extra="allow"] (a keyword that names no field is kept as it
    is, after the declared fields). *)

Definition validated (name : string) (field : FieldInfo) (v : value)
  : result (string * value) :=
  match validate field v with
  | Some v' => Ok (name, v')
  | None => Raise (ValidationError name)
  end.

Definition init_field (kwargs : list (string * value))
  (nf : string * FieldInfo) : result (string * value) :=
  let '(name, field) := nf in
  match dict_get (field_name name) kwargs with
  | Some v => validated name field v
  | None =>
      match dict_get name kwargs with
      | Some v => validated name field v
      | None =>
          match fi_default field with
          | Default d => Ok (name, d)
          | PydanticUndefined => Raise (ValidationError name)
          end
      end
  end.

Definition is_extra (cls : ModelClass) (key : string) : bool :=
  negb (existsb (fun '(name, _) =>
                   String.eqb key name || String.eqb key (field_name name))
                (cls_fields cls)).

(** [cls( **kwargs)]: the items of the new instance. *)
Definition construct (cls : ModelClass) (kwargs : list (string * value))
  : result (list (string * value)) :=
  fields <- mapM (init_field kwargs) (cls_fields cls) ;;
  Ok (fields ++ List.filter (fun '(key, _) => is_extra cls key) kwargs)%list.

(** The instance of [cls] that has these items. *)
Definition instance (cls : ModelClass) (items : list (string * value)) : value :=
  VModel (cls_name cls) (cls_tagged cls) items.

(** [self.model_dump()]: models become dicts keyed by field name, at every
    depth. *)
Fixpoint dump (v : value) {struct v} : value :=
  match v with
  | VModel _ _ fields => VDict (map (fun '(name, x) => (VStr name, dump x)) fields)
  | VDict items => VDict (map (fun '(key, x) => (key, dump x)) items)
  | VList items => VList (map dump items)
  | _ => v
  end.

Definition model_dump (self : list (string * value)) : list (value * value) :=
  map (fun '(name, x) => (VStr name, dump x)) self.

(** ** make_default *)

(** Modelled from the spec: [merge_dicts], which the module imports from
    [._utils].  The second dict is merged on top of the first: on a key of
    both, two dicts are merged recursively and any other value replaces the
    old one outright. *)
Fixpoint merge_value (old new : value) {struct new} : value :=
  match old, new with
  | VDict a, VDict b =>
      VDict (fold_left
               (fun acc '(key, v) =>
                  vdict_set key
                    match vdict_get key acc with
                    | Some o => merge_value o v
                    | None => v
                    end acc)
               b a)
  | _, _ => new
  end.

Definition merge_dicts (a b : list (value * value)) : list (value * value) :=
  fold_left
    (fun acc '(key, v) =>
       vdict_set key
         match vdict_get key acc with
         | Some o => merge_value o v
         | None => v
         end acc)
    b a.

(** The nested function [special_cases]; [VNone] is its [return None]. *)
Definition special_cases (name : string) : value :=
  if String.eqb name "read_pattern" then
    VList [VList [VInt 1]; VList [VInt 2; VInt 3]; VList [VInt 4];
           VList [VInt 5; VInt 6; VInt 7; VInt 8]; VList [VInt 9; VInt 10];
           VList [VInt 11]]
  else if String.eqb name "p_exptype" then
    VStr "WFI_IMAGE|WFI_GRISM|WFI_PRISM|"
  else if String.eqb name "coordinate_distortion_transform" then
    VObject "models.Shift(1) & models.Shift(2)"
  else if String.eqb name "tweakreg_catalog_name" then
    VStr "filename_tweakreg_catalog.asdf"
  else VNone.

(** The keys of [phot_table] in [default_dict]. *)
Definition phot_table_keys : list value :=
  map VStr ["F062"; "F087"; "F106"; "F129"; "F146"; "F158"; "F184"; "F213";
            "GRISM"; "PRISM"; "DARK"].

(** Whether a value can be the key of a dict: lists, dicts and (not frozen)
    models cannot. *)
Definition hashable (v : value) : bool :=
  match v with
  | VList _ | VDict _ | VModel _ _ _ => false
  | _ => true
  end.

(** [x is not None] *)
Definition is_not_None (x : value) : bool :=
  match x with
  | VNone => false
  | _ => true
  end.

(** A call [f(a, ..., **kwargs)] of a function whose parameters [params]
    are given by position: the first keyword that names one of them is a
    second value for it, and the call raises before the body runs. *)
Definition multiple_values (params : list string)
  (kwargs : list (string * value)) : option exn :=
  match List.find (fun '(key, _) => existsb (String.eqb key) params) kwargs with
  | Some (key, _) =>
      Some (TypeError ("got multiple values for argument '" ++ key ++ "'"))
  | None => None
  end.

(** [get_default(type_, **kwargs)] for an object [type_] that is no class:
    [issubclass(field_type, BaseDataModel)] raises. *)
Definition not_a_class {A : Type} (kwargs : list (string * value)) : result A :=
  match multiple_values ["field_type"] kwargs with
  | Some e => Raise e
  | None => Raise (TypeError "issubclass() arg 1 must be a class")
  end.

(** The end of [make_default]:
    [cls( **merge_dicts(cls( **defaults).model_dump(), data or {}))]. *)
Definition mix_in (cls : ModelClass) (defaults : list (string * value))
  (data : option (list (value * value))) : result value :=
  provisional <- construct cls defaults ;;
  let data := match data with Some d => d | None => [] end in
  merged <- keywords (merge_dicts (model_dump provisional) data) ;;
  final <- construct cls merged ;;
  Ok (instance cls final).

(** [make_default] with its nested functions [get_default], [default_list]
    and [default_dict]; [resolve_field] is the body of its loop over
    [cls.model_fields], with [name] already [field_name(name)]: [Some v] when
    the body sets [defaults[name] = v], [None] when it sets nothing.
    [kwargs] is the dict of the parameter of that name: it has no key [data]
    and no key [cls], a keyword of such a name being bound to the parameter
    or refused by the call of [make_default] itself.  The nested functions
    take their first parameters by position and are given [kwargs] unpacked,
    so a keyword named as one of those parameters makes the call raise. *)
Fixpoint make_default (cls : ModelClass) (data : option (list (value * value)))
  (kwargs : list (string * value)) {struct cls} : result value :=
  match cls with
  | MkModel _ _ model_fields =>
      defaults <-
        (fix loop (fields : list (string * FieldInfo))
           (defaults : list (string * value)) {struct fields}
           : result (list (string * value)) :=
           match fields with
           | [] => Ok defaults
           | (name, field) :: fields' =>
               let name := field_name name in
               r <- resolve_field name field kwargs ;;
               match r with
               | Some v => loop fields' (dict_set name v defaults)
               | None => loop fields' defaults
               end
           end) model_fields [] ;;
      mix_in cls defaults data
  end

with resolve_field (name : string) (field : FieldInfo)
  (kwargs : list (string * value)) {struct field} : result (option value) :=
  match field with
  | MkFieldInfo default origin args type_ =>
      let static :=
        match default with
        | Default d => if is_not_None d then Some d else None
        | PydanticUndefined => None
        end in
      match static with
      | Some d => Ok (Some d)
      | None =>
      match get_adaptor field with
      | Some adaptor => Ok (Some (adaptor kwargs))
      | None =>
      if is_not_None (special_cases name) then Ok (Some (special_cases name))
      else
        let generic :=
          value <- get_default type_ kwargs ;;
          Ok (if is_not_None value then Some value else None) in
        (* get_default at an argument of the annotation *)
        let get_default_arg := fun type_ : type_arg =>
          match type_ with
          | ArgClass t => get_default t kwargs
          | ArgAlias _ => not_a_class kwargs
          end in
        if isclass origin then
          match origin with
          | Some OriginDict =>
              (* default_dict(field, name, **kwargs) *)
              match multiple_values ["field"; "name"] kwargs with
              | Some e => Raise e
              | None =>
              match args with
              | [key_type; value_type] =>
                  key <- get_default_arg key_type ;;
                  let keys :=
                    if String.eqb name "phot_table" then phot_table_keys
                    else [key] in
                  v <- get_default_arg value_type ;;
                  if forallb hashable keys
                  then Ok (Some (VDict (map (fun key => (key, v)) keys)))
                  else Raise (TypeError "unhashable type")
              | _ => Raise (ValueError "unpack")
              end
              end
          | Some OriginList =>
              (* default_list(field, **kwargs) *)
              match multiple_values ["field"] kwargs with
              | Some e => Raise e
              | None =>
                  items <- mapM get_default_arg args ;;
                  Ok (Some (VList items))
              end
          | _ => generic
          end
        else generic
      end
      end
  end

with get_default (field_type : pytype) (kwargs : list (string * value))
  {struct field_type} : result value :=
  match multiple_values ["field_type"] kwargs with
  | Some e => Raise e
  | None =>
  match field_type with
  | TModel m => make_default m None kwargs
  | TFloat | TInt => Ok (VInt (-999999))
  | TStr => Ok (VStr "dummy value")
  | TBool => Ok (VBool false)
  | TEnum _ first _ => Ok (snd first)
  | TClass _ => Ok VNone
  end
  end.

(** ** The interpreter state *)

(** [BaseDataModel.model_config], a [ConfigDict]. *)
Record ConfigDict : Type := {
  protected_namespaces : list string;
  use_enum_values : bool;
  populate_by_name : bool;
  extra : string;
  validate_assignment : bool;
  revalidate_instances : string;
}.

Definition model_config : ConfigDict := {|
  protected_namespaces := [];
  use_enum_values := true;
  populate_by_name := true;
  extra := "allow";
  validate_assignment := true;
  revalidate_instances := "always";
|}.

(** An instance as an object: its items (the declared fields, then the
    extras) and the attributes that were assigned to it under a name that
    begins with an underscore, among them the private attribute
    [_validate_setitem]; such an attribute is no item.  A model held by an
    item is part of the value of that item: the worlds considered have no
    instance that is reached from two places. *)
Record Object : Type := {
  obj_items : list (string * value);
  obj_private : list (string * value);
}.

(** [self._validate_setitem]: the value last assigned to the attribute,
    [True] as the class declares when none was. *)
Definition _validate_setitem (o : Object) : value :=
  match dict_get "_validate_setitem" (obj_private o) with
  | Some v => v
  | None => VBool true
  end.

(** [bool(x)], the test of an [if] *)
Definition py_bool (x : value) : result bool :=
  match x with
  | VNone => Ok false
  | VBool b => Ok b
  | VInt z => Ok (negb (Z.eqb z 0))
  | VStr s => Ok (negb (String.eqb s ""))
  | VList items => Ok (match items with [] => false | _ :: _ => true end)
  | VDict items => Ok (match items with [] => false | _ :: _ => true end)
  | _ => bool_object x
  end.

Inductive event : Type :=
| Warn (category message : string)   (* warnings.warn(message, category) *)
| Revalidate (id : nat).             (* a full validation of an instance *)

(** [model_config] is an attribute of the class, not of the instance:
    [self.model_config] is the one dict of [type(self)], which every
    instance of that class reads and writes.  pydantic gives each model class
    a dict of its own, filled from its bases; [configs] holds the dict of a
    class once it was written to. *)
Record World : Type := {
  configs : gmap string ConfigDict;
  objects : gmap nat Object;
  events : list event;
}.

(** A reference to an instance: its identity and its class. *)
Record Ref : Type := {
  ref_cls : ModelClass;
  ref_id : nat;
}.

(** A statement: it runs in a world, returns or raises, and leaves a world. *)
Definition M (A : Type) : Type := World -> result A * World.

Definition seq (a b : M unit) : M unit :=
  fun w =>
    match a w with
    | (Ok _, w') => b w'
    | (Raise e, w') => (Raise e, w')
    end.

(** [self.model_config] *)
Definition config_of (w : World) (self : Ref) : ConfigDict :=
  default model_config (configs w !! cls_name (ref_cls self)).

Definition object_of (w : World) (self : Ref) : Object :=
  default {| obj_items := []; obj_private := [] |}
          (objects w !! ref_id self).

Definition set_config (self : Ref) (c : ConfigDict) (w : World) : World :=
  {| configs := <[cls_name (ref_cls self) := c]> (configs w);
     objects := objects w;
     events := events w |}.

(** [self.model_config["validate_assignment"] = b] *)
Definition set_validate_assignment (self : Ref) (b : bool) (w : World) : World :=
  let c := config_of w self in
  set_config self
    {| protected_namespaces := protected_namespaces c;
       use_enum_values := use_enum_values c;
       populate_by_name := populate_by_name c;
       extra := extra c;
       validate_assignment := b;
       revalidate_instances := revalidate_instances c |} w.

(** [self.model_config["revalidate_instances"] = s] *)
Definition set_revalidate_instances (self : Ref) (s : string) (w : World) : World :=
  let c := config_of w self in
  set_config self
    {| protected_namespaces := protected_namespaces c;
       use_enum_values := use_enum_values c;
       populate_by_name := populate_by_name c;
       extra := extra c;
       validate_assignment := validate_assignment c;
       revalidate_instances := s |} w.

Definition set_object (self : Ref) (o : Object) (w : World) : World :=
  {| configs := configs w;
     objects := <[ref_id self := o]> (objects w);
     events := events w |}.

Definition emit (e : event) (w : World) : World :=
  {| configs := configs w;
     objects := objects w;
     events := events w ++ [e] |}.

(** [set_validate_setitem] *)
Definition set_validate_setitem (self : Ref) (value : bool) : M unit :=
  fun w =>
    let o := object_of w self in
    (Ok tt,
     set_object self
       {| obj_items := obj_items o;
          obj_private := dict_set "_validate_setitem" (VBool value) (obj_private o) |}
       w).

(** A name that pydantic takes for an attribute of the object and not for
    an item: it begins with an underscore.  A model class has no field of
    such a name (pydantic refuses the class), so a declared field is never
    taken for one. *)
Definition is_private (cls : ModelClass) (key : string) : bool :=
  String.prefix "_" key
  && match dict_get key (cls_fields cls) with
     | Some _ => false
     | None => true
     end.

(** What pydantic's [__setattr__] does with the value once it is accepted:
    under a private name the attribute of the object becomes [v], no item
    being added; under any other name the item [key] of [self] becomes
    [v]. *)
Definition store (self : Ref) (key : string) (v : value) (w : World) : World :=
  let o := object_of w self in
  if is_private (ref_cls self) key then
    set_object self {| obj_items := obj_items o;
                       obj_private := dict_set key v (obj_private o) |} w
  else
    set_object self {| obj_items := dict_set key v (obj_items o);
                       obj_private := obj_private o |} w.

(** [setattr(self, key, value)], pydantic's [__setattr__]: under
    [validate_assignment] the value of a declared field is validated and
    the validated value is stored, a validation error leaving the instance
    as it was; otherwise the value is stored as it is.  A private name is
    no declared field and is never validated. *)
Definition setattr (self : Ref) (key : string) (v : value) : M unit :=
  fun w =>
    if validate_assignment (config_of w self) then
      match dict_get key (cls_fields (ref_cls self)) with
      | Some field =>
          match validate field v with
          | Some v' => (Ok tt, store self key v' w)
          | None => (Raise (ValidationError key), w)
          end
      | None => (Ok tt, store self key v w)
      end
    else (Ok tt, store self key v w).

(** [self.model_validate(self)]: under [revalidate_instances="always"] the
    instance goes through the validation of a construction from its own
    items; otherwise it is returned as it is. *)
Definition model_validate (self : Ref) : M unit :=
  fun w =>
    if String.eqb (revalidate_instances (config_of w self)) "always" then
      let w' := emit (Revalidate (ref_id self)) w in
      match construct (ref_cls self) (obj_items (object_of w self)) with
      | Ok _ => (Ok tt, w')
      | Raise e => (Raise e, w')
      end
    else (Ok tt, w).

(** ** pause_validation *)

(** The generator up to its [yield]. *)
Definition pause_enter (self : Ref) (w : World) : World :=
  set_revalidate_instances self "never" (set_validate_assignment self false w).

(** The [finally] clause. *)
Definition pause_exit (self : Ref) (revalidate_on_exit : bool) : M unit :=
  fun w =>
    let w := set_validate_assignment self true w in
    let w := set_revalidate_instances self "always" w in
    if revalidate_on_exit then model_validate self w else (Ok tt, w).

(** [with self.pause_validation(revalidate_on_exit=...): block].  The
    [finally] clause runs however the block ends; when it raises, its
    exception is the one that leaves the statement, otherwise the outcome
    of the block is. *)
Definition pause_validation (self : Ref) (revalidate_on_exit : bool)
  (block : M unit) : M unit :=
  fun w =>
    let '(r, w1) := block (pause_enter self w) in
    match pause_exit self revalidate_on_exit w1 with
    | (Ok _, w2) => (r, w2)
    | (Raise e, w2) => (Raise e, w2)
    end.

(** [with nullcontext(): block] *)
Definition nullcontext (block : M unit) : M unit := block.

(** ** __setitem__ *)

Definition setitem_warning : string :=
  "RomanDataModel.__setitem__ is circumventing validation, and does not re-validate the model. "
  ++ "This can lead to an invalid model for serialization. To make sure validation occurs, call "
  ++ ".set_validate_setitem(True) on the model".

Definition __setitem__ (self : Ref) (key : string) (v : value) : M unit :=
  fun w =>
    match py_bool (_validate_setitem (object_of w self)) with
    | Ok true => nullcontext (setattr self key v) w
    | Ok false =>
        let w := emit (Warn "RuntimeWarning" setitem_warning) w in
        pause_validation self false (setattr self key v) w
    | Raise e => (Raise e, w)
    end.

(** [self[item]], that is [getattr(self, item)]: [None] when the instance
    has no item and no attribute of that name. *)
Definition __getitem__ (self : Ref) (item : string) (w : World) : option value :=
  let o := object_of w self in
  if is_private (ref_cls self) item then
    if String.eqb item "_validate_setitem" then Some (_validate_setitem o)
    else dict_get item (obj_private o)
  else dict_get item (obj_items o).

End Embedding.

(** ** Definitions used to state the properties *)

Section Statements.
Context `{Collaborators}.
Local Open Scope result_scope.

(** [get_default(type_, **kwargs)] at an argument [type_] of an
    annotation. *)
Definition get_default_arg (type_ : type_arg) (kwargs : list (string * value))
  : result value :=
  match type_ with
  | ArgClass t => get_default t kwargs
  | ArgAlias _ => not_a_class kwargs
  end.

(** The nested function [default_list] of [make_default], called as
    [default_list(field, **kwargs)]. *)
Definition default_list (field : FieldInfo) (kwargs : list (string * value))
  : result value :=
  match multiple_values ["field"] kwargs with
  | Some e => Raise e
  | None =>
      items <- mapM (fun type_ => get_default_arg type_ kwargs) (fi_args field) ;;
      Ok (VList items)
  end.

(** The nested function [default_dict] of [make_default], called as
    [default_dict(field, name, **kwargs)]. *)
Definition default_dict (field : FieldInfo) (name : string)
  (kwargs : list (string * value)) : result value :=
  match multiple_values ["field"; "name"] kwargs with
  | Some e => Raise e
  | None =>
  match fi_args field with
  | [key_type; value_type] =>
      key <- get_default_arg key_type kwargs ;;
      let keys :=
        if String.eqb name "phot_table" then phot_table_keys else [key] in
      v <- get_default_arg value_type kwargs ;;
      if forallb hashable keys
      then Ok (VDict (map (fun key => (key, v)) keys))
      else Raise (TypeError "unhashable type")
  | _ => Raise (ValueError "unpack")
  end
  end.

(** The loop of [make_default] over [cls.model_fields]. *)
Fixpoint build_defaults (fields : list (string * FieldInfo))
  (kwargs : list (string * value)) (defaults : list (string * value))
  : result (list (string * value)) :=
  match fields with
  | [] => Ok defaults
  | (name, field) :: fields' =>
      r <- resolve_field (field_name name) field kwargs ;;
      match r with
      | Some v => build_defaults fields' kwargs (dict_set (field_name name) v defaults)
      | None => build_defaults fields' kwargs defaults
      end
  end.

(** A field has no usable static default: [field.default] is
    [PydanticUndefined] or [None]. *)
Definition no_static_default (field : FieldInfo) : Prop :=
  fi_default field = PydanticUndefined \/ fi_default field = Default VNone.

(** The last step of the loop: a [None] from [get_default] sets nothing. *)
Definition if_not_None (r : result value) : result (option value) :=
  value <- r ;; Ok (if is_not_None value then Some value else None).

(** An enum with its [.value] taken until the value is no enum. *)
Fixpoint unwrap (v : value) : value :=
  match v with
  | VEnum _ _ val => unwrap val
  | _ => v
  end.

(** A value [flat_items] yields whole: once unwrapped it is no model, no
    dict and no list. *)
Definition is_leaf (v : value) : bool :=
  match unwrap v with
  | VModel _ _ _ | VDict _ | VList _ => false
  | _ => true
  end.

(** No model below [v] is tagged. *)
Fixpoint tagged_free (v : value) {struct v} : bool :=
  match v with
  | VModel _ tagged fields =>
      negb tagged && forallb (fun '(_, x) => tagged_free x) fields
  | VDict items => forallb (fun '(_, x) => tagged_free x) items
  | VList items => forallb tagged_free items
  | VEnum _ _ val => tagged_free val
  | _ => true
  end.

(** Both validation flags of the class of [self], as [pause_validation]
    leaves them on exit. *)
Definition validation_enabled (w : World) (self : Ref) : Prop :=
  validate_assignment (config_of w self) = true
  /\ revalidate_instances (config_of w self) = "always".

(** Both flags as [pause_validation] sets them on entry. *)
Definition validation_paused (w : World) (self : Ref) : Prop :=
  validate_assignment (config_of w self) = false
  /\ revalidate_instances (config_of w self) = "never".

(** A block of attribute assignments to [self], one after the other. *)
Fixpoint assign_all (self : Ref) (assignments : list (string * value)) : M unit :=
  match assignments with
  | [] => fun w => (Ok tt, w)
  | (key, v) :: rest => seq (setattr self key v) (assign_all self rest)
  end.

End Statements.

(** ** Reference collaborators and examples *)

Module Reference.

(** An alias resolver: the field [pass_] is [pass] outside. *)
Definition alias (n : string) : string :=
  if String.eqb n "pass_" then "pass" else n.

(** A validator that accepts a value of the annotated type as it is, takes
    the value of an enum member, and builds a nested model from a dict or
    from an instance of the class; of the generic annotations it knows
    [List[T]] and [Dict[K, V]] for classes [T], [K] and [V], whose elements,
    keys and values it validates, and it refuses any other. *)
Fixpoint check_type (t : pytype) (v : value) {struct t} : option value :=
  match t with
  | TInt | TFloat => match v with VInt _ => Some v | _ => None end
  | TStr => match v with VStr _ => Some v | _ => None end
  | TBool => match v with VBool _ => Some v | _ => None end
  | TEnum _ first rest =>
      let x := match v with VEnum _ _ x => x | _ => v end in
      if existsb (fun m => value_eqb x (snd m)) (first :: rest)
      then Some x else None
  | TClass _ => match v with VObject _ => Some v | _ => None end
  | TModel m =>
      let C := {| field_name := alias; get_adaptor := fun _ => None;
                  validate := check_field; str_object := fun _ => "<object>";
                  bool_object := fun _ => Ok true |} in
      let kwargs :=
        match v with
        | VModel c _ items =>
            if String.eqb c (cls_name m) then Ok items
            else Raise (ValidationError "")
        | VDict d => keywords d
        | _ => Raise (ValidationError "")
        end in
      match rbind kwargs (@construct C m) with
      | Ok items => Some (instance m items)
      | Raise _ => None
      end
  end

with check_field (field : FieldInfo) (v : value) {struct field} : option value :=
  match field with
  | MkFieldInfo _ origin args t =>
      match origin with
      | Some OriginList =>
          match args, v with
          | [ArgClass a], VList items =>
              match mapM (fun x =>
                            match check_type a x with
                            | Some y => Ok y
                            | None => Raise (ValidationError "")
                            end) items with
              | Ok ys => Some (VList ys)
              | Raise _ => None
              end
          | _, _ => None
          end
      | Some OriginDict =>
          match args, v with
          | [ArgClass k; ArgClass a], VDict items =>
              match mapM (fun '(key, x) =>
                            match check_type k key, check_type a x with
                            | Some key', Some y => Ok (key', y)
                            | _, _ => Raise (ValidationError "")
                            end) items with
              | Ok ys => Some (VDict ys)
              | Raise _ => None
              end
          | _, _ => None
          end
      | _ => check_type t v
      end
  end.

Definition collaborators : Collaborators := {|
  field_name := alias;
  get_adaptor := fun _ => None;
  validate := check_field;
  str_object := fun _ => "<object>";
  bool_object := fun _ => Ok true;
|}.

End Reference.

Module Example.

Definition name_field : FieldInfo := MkFieldInfo PydanticUndefined None [] TStr.
Definition count_field : FieldInfo := MkFieldInfo PydanticUndefined None [] TInt.
Definition tags_field : FieldInfo :=
  MkFieldInfo PydanticUndefined (Some OriginList) [ArgClass TStr] TStr.

(** The model of the example scenario:
    [name: str], [count: int], [tags: List[str]]. *)
Definition Scenario : ModelClass :=
  MkModel "Scenario" false
    [("name", name_field); ("count", count_field); ("tags", tags_field)].

(** A model with an aliased field and a nested model that is not tagged. *)
Definition Exposure : ModelClass :=
  MkModel "Exposure" false
    [("type", MkFieldInfo PydanticUndefined None []
                (TEnum "ExposureType" ("WFI_IMAGE", VStr "WFI_IMAGE")
                                      [("WFI_GRISM", VStr "WFI_GRISM")]));
     ("ngroups", MkFieldInfo PydanticUndefined None [] TInt)].

Definition Observation : ModelClass :=
  MkModel "Observation" false
    [("pass_", MkFieldInfo PydanticUndefined None [] TInt);
     ("exposure", MkFieldInfo PydanticUndefined None [] (TModel Exposure))].

Definition observation_items : list (string * value) :=
  [("pass_", VInt 3);
   ("exposure", VModel "Exposure" false
                  [("type", VStr "WFI_IMAGE"); ("ngroups", VInt 6)]);
   ("comment", VStr "extra")].

(** Two instances of one class and an instance of another class. *)
Definition a : Ref := {| ref_cls := Scenario; ref_id := 1 |}.
Definition b : Ref := {| ref_cls := Scenario; ref_id := 2 |}.
Definition c : Ref := {| ref_cls := Exposure; ref_id := 3 |}.

Definition scenario_items : list (string * value) :=
  [("name", VStr "M1"); ("count", VInt 7); ("tags", VList [VStr "x"])].

(** A world in which no [model_config] was written to and [a], [b] and [c]
    are valid instances. *)
Definition world : World := {|
  configs := ∅;
  objects :=
    <[1%nat := {| obj_items := scenario_items; obj_private := [] |}]>
    (<[2%nat := {| obj_items := scenario_items; obj_private := [] |}]>
    (<[3%nat := {| obj_items := [("type", VStr "WFI_IMAGE"); ("ngroups", VInt 6)];
                   obj_private := [] |}]> ∅));
  events := [];
|}.

(** The world after [a.set_validate_setitem(False)]. *)
Definition unvalidated : World := snd (set_validate_setitem a false world).

(** The items of [a] once its count is a string. *)
Definition invalid_items : list (string * value) :=
  [("name", VStr "M1"); ("count", VStr "abc"); ("tags", VList [VStr "x"])].

(** The items of a valid instance with a model kept as an extra. *)
Definition items_with_extra_model : list (string * value) :=
  (scenario_items
   ++ [("exposure", VModel "Exposure" false
                      [("type", VStr "WFI_IMAGE"); ("ngroups", VInt 6)])])%list.

(** The items of valid instances with an enum member kept as an extra, and
    with an extra named [pass_]. *)
Definition items_with_extra_enum : list (string * value) :=
  (scenario_items ++ [("filter", VEnum "Filter" "F158" (VStr "F158"))])%list.

Definition items_with_extra_pass : list (string * value) :=
  (scenario_items ++ [("pass_", VInt 1)])%list.

(** A tagged model with a list of models and a dict of models. *)
Definition Program : ModelClass :=
  MkModel "Program" true
    [("pass_", MkFieldInfo PydanticUndefined None [] TInt);
     ("exposures", MkFieldInfo PydanticUndefined (Some OriginList)
                     [ArgClass (TModel Exposure)] (TModel Exposure));
     ("by_name", MkFieldInfo PydanticUndefined (Some OriginDict)
                   [ArgClass TStr; ArgClass (TModel Exposure)] (TModel Exposure))].

Definition exposure : value :=
  VModel "Exposure" false [("type", VStr "WFI_IMAGE"); ("ngroups", VInt 6)].

Definition program_items : list (string * value) :=
  [("pass_", VInt 3);
   ("exposures", VList [exposure; exposure]);
   ("by_name", VDict [(VStr "first", exposure)]);
   ("comment", VStr "extra")].

(** A model with two fields whose external name is [pass]: a dict, and
    a model one of whose fields has a static default. *)
Definition Point : ModelClass :=
  MkModel "Point" false
    [("x", MkFieldInfo PydanticUndefined None [] TInt);
     ("y", MkFieldInfo (Default (VInt 0)) None [] TInt)].

Definition Shared : ModelClass :=
  MkModel "Shared" false
    [("pass", MkFieldInfo PydanticUndefined (Some OriginDict)
                [ArgClass TStr; ArgClass TInt] TInt);
     ("pass_", MkFieldInfo PydanticUndefined None [] (TModel Point))].

Definition shared_items : list (string * value) :=
  [("pass", VDict [(VStr "x", VInt 1)]);
   ("pass_", VModel "Point" false [("x", VInt 1); ("y", VInt 0)])].

(** A model with a field of an enum whose one value is a list with a
    member of another enum in it. *)
Definition Palette : ModelClass :=
  MkModel "Palette" false
    [("color", MkFieldInfo PydanticUndefined None []
                 (TEnum "Color"
                    ("RED", VList [VEnum "Shade" "DARK" (VStr "dark")]) []))].

Definition palette_items : list (string * value) :=
  [("color", VList [VEnum "Shade" "DARK" (VStr "dark")])].

(** An instance holding the [read_pattern] of [special_cases]. *)
Definition with_read_pattern : value :=
  VModel "Exposure" false [("read_pattern", special_cases "read_pattern")].

End Example.

(** * Further operations of the package *)

(** ** to_flat_dict *)

(** The [isinstance] tests of [to_flat_dict] on an object, and
    [value.isoformat()] of a datetime. *)
Class TypeTests : Type := {
  is_datetime : value -> bool;
  is_Time : value -> bool;
  is_ndarray : value -> bool;
  isoformat : value -> string;
}.

Section FlatDict.
Context `{Collaborators} `{TypeTests}.

(** The nested function [convert_value]. *)
Definition convert_value (v : value) : value :=
  if is_datetime v then VStr (isoformat v)
  else if is_Time v then VStr (py_str v)
  else v.

Definition to_flat_dict (self : value) (include_arrays : bool)
  : list (string * value) :=
  dict_of_items
    (map (fun '(name, v) => ("roman." ++ name, convert_value v))
       (List.filter (fun '(_, v) => include_arrays || negb (is_ndarray v))
          (flat_items self true))).

End FlatDict.

(** ** __contains__ *)

(** [self.model_extra]: the items of the instance that are no declared
    field. *)
Definition model_extra (self : Ref) (w : World) : list (string * value) :=
  List.filter
    (fun '(key, _) =>
       negb (existsb (String.eqb key) (map fst (cls_fields (ref_cls self)))))
    (obj_items (object_of w self)).

Definition __contains__ (self : Ref) (item : string) (w : World) : bool :=
  existsb (String.eqb item) (map fst (cls_fields (ref_cls self)))
  || existsb (String.eqb item) (map fst (model_extra self w)).

(** ** get_archive_metadata *)

(** The class [Archive] of [._metadata], as far as the module uses it:
    [get_archive(field.json_schema_extra)] for a field, and [has_info]. *)
Class ArchiveInfo : Type := {
  Archive : Type;
  get_archive : FieldInfo -> Archive;
  has_info : Archive -> bool;
}.

(** A value of the dict [get_archive_metadata] returns: the archive of a
    field, or the metadata of a nested model. *)
Inductive Archives `{ArchiveInfo} : Type :=
| ArchiveOf (archive : Archive)
| ArchivesOf (metadata : list (string * Archives)).

Section ArchiveMetadata.
Context `{Collaborators} `{ArchiveInfo}.

Fixpoint get_archive_metadata (cls : ModelClass) {struct cls}
  : list (string * Archives) :=
  match cls with
  | MkModel _ _ model_fields =>
      (fix loop (fields : list (string * FieldInfo))
         (metadata : list (string * Archives)) {struct fields}
         : list (string * Archives) :=
         match fields with
         | [] => metadata
         | (name, field) :: fields' =>
             let name := field_name name in
             let archive := get_archive field in
             if has_info archive
             then loop fields' (dict_set name (ArchiveOf archive) metadata)
             else
               match field with
               | MkFieldInfo _ _ _ (TModel field_type) =>
                   let archive := get_archive_metadata field_type in
                   match archive with
                   | [] => loop fields' metadata
                   | _ :: _ =>
                       loop fields' (dict_set name (ArchivesOf archive) metadata)
                   end
               | _ => loop fields' metadata
               end
         end) model_fields []
  end.

(** The loop of [get_archive_metadata], by itself. *)
Fixpoint archive_loop (fields : list (string * FieldInfo))
  (metadata : list (string * Archives)) : list (string * Archives) :=
  match fields with
  | [] => metadata
  | (name, field) :: fields' =>
      if has_info (get_archive field)
      then archive_loop fields'
             (dict_set (field_name name) (ArchiveOf (get_archive field)) metadata)
      else
        match fi_type field with
        | TModel field_type =>
            match get_archive_metadata field_type with
            | [] => archive_loop fields' metadata
            | archive =>
                archive_loop fields'
                  (dict_set (field_name name) (ArchivesOf archive) metadata)
            end
        | _ => archive_loop fields' metadata
        end
  end.

(** No field of the class, at any depth of nested models, has archive
    information. *)
Fixpoint unannotated (cls : ModelClass) {struct cls} : bool :=
  match cls with
  | MkModel _ _ model_fields =>
      forallb
        (fun '(_, field) =>
           negb (has_info (get_archive field))
           && match field with
              | MkFieldInfo _ _ _ (TModel field_type) => unannotated field_type
              | _ => true
              end)
        model_fields
  end.

(** Every archive has information and every nested metadata has an entry,
    at every depth. *)
Fixpoint informative (a : Archives) {struct a} : bool :=
  match a with
  | ArchiveOf archive => has_info archive
  | ArchivesOf metadata =>
      match metadata with
      | [] => false
      | _ :: _ => forallb (fun '(_, sub) => informative sub) metadata
      end
  end.

End ArchiveMetadata.

(** ** maker_utils.mk_basic_meta *)

(** [kwargs.get(key, default)] *)
Definition kwargs_get (kwargs : list (string * value)) (key : string)
  (default : value) : value :=
  match dict_get key kwargs with
  | Some v => v
  | None => default
  end.

(** [time.Time("2020-01-01T00:00:00.0", format="isot", scale="utc")] *)
Definition default_file_date : value :=
  VObject "Time(2020-01-01T00:00:00.0, format=isot, scale=utc)".

(** [mk_basic_meta( **kwargs)]; [NOFN] and [NOSTR] are the constants of
    [maker_utils._base]. *)
Definition mk_basic_meta (NOFN NOSTR : value) (kwargs : list (string * value))
  : list (string * value) :=
  let meta := [] in
  let meta := dict_set "calibration_software_name"
                (kwargs_get kwargs "calibration_software_name" (VStr "RomanCAL")) meta in
  let meta := dict_set "calibration_software_version"
                (kwargs_get kwargs "calibration_software_version" (VStr "9.9.0")) meta in
  let meta := dict_set "product_type"
                (kwargs_get kwargs "product_type" (VStr "l2")) meta in
  let meta := dict_set "filename" (kwargs_get kwargs "filename" NOFN) meta in
  let meta := dict_set "file_date"
                (kwargs_get kwargs "file_date" default_file_date) meta in
  let meta := dict_set "model_type" (kwargs_get kwargs "model_type" NOSTR) meta in
  let meta := dict_set "origin" (kwargs_get kwargs "origin" (VStr "STSCI/SOC")) meta in
  let meta := dict_set "prd_version"
                (kwargs_get kwargs "prd_version" (VStr "8.8.8")) meta in
  let meta := dict_set "sdf_software_version"
                (kwargs_get kwargs "sdf_software_version" (VStr "7.7.7")) meta in
  let meta := dict_set "telescope" (kwargs_get kwargs "telescope" (VStr "ROMAN")) meta in
  meta.

(** The keys of the dict [mk_basic_meta] returns. *)
Definition basic_meta_keys : list string :=
  ["calibration_software_name"; "calibration_software_version"; "product_type";
   "filename"; "file_date"; "model_type"; "origin"; "prd_version";
   "sdf_software_version"; "telescope"].

(** ** Definitions used to state further properties *)

Section Further_statements.
Context `{Collaborators}.

(** A tree as [to_asdf_tree] leaves it: below dicts and lists there is no
    enum member and no model that is not tagged (a tagged model is not
    looked into). *)
Fixpoint serialized (v : value) {struct v} : bool :=
  match v with
  | VModel _ tagged _ => tagged
  | VDict items => forallb (fun '(_, x) => serialized x) items
  | VList items => forallb serialized items
  | VEnum _ _ _ => false
  | _ => true
  end.

(** Every enum member found below models that are not tagged, dicts and
    lists has a [serialized] value. *)
Fixpoint plain_enums (v : value) {struct v} : bool :=
  match v with
  | VModel _ tagged fields =>
      tagged || forallb (fun '(_, x) => plain_enums x) fields
  | VDict items => forallb (fun '(_, x) => plain_enums x) items
  | VList items => forallb plain_enums items
  | VEnum _ _ val => serialized val
  | _ => true
  end.

(** A value that [flat_items] may yield: no model, no dict, no enum member,
    and with [flatten_lists] no list. *)
Definition yielded_whole (flatten_lists : bool) (v : value) : bool :=
  match v with
  | VModel _ _ _ | VDict _ | VEnum _ _ _ => false
  | VList _ => negb flatten_lists
  | _ => true
  end.

(** [reaches flatten_lists v way x]: from [v] a way down leads to the value
    [x] that [flat_items] yields, [way] being what [recurse] appends to the
    path on it: the name of a field for a model gone through, the key for
    a dict, the index for a list (with [flatten_lists] only), and nothing
    for an enum member, which is replaced by its value. *)
Inductive reaches (flatten_lists : bool) : value -> list value -> value -> Prop :=
| reaches_leaf (v : value) :
    yielded_whole flatten_lists v = true -> reaches flatten_lists v [] v
| reaches_enum (cls member : string) (val : value) (way : list value) (x : value) :
    reaches flatten_lists val way x ->
    reaches flatten_lists (VEnum cls member val) way x
| reaches_model (cls : string) (tagged : bool) (fields : list (string * value))
    (name : string) (v : value) (way : list value) (x : value) :
    In (name, v) fields -> reaches flatten_lists v way x ->
    reaches flatten_lists (VModel cls tagged fields) (VStr name :: way) x
| reaches_dict (items : list (value * value)) (key v : value)
    (way : list value) (x : value) :
    In (key, v) items -> reaches flatten_lists v way x ->
    reaches flatten_lists (VDict items) (key :: way) x
| reaches_list (items : list value) (index : nat) (v : value)
    (way : list value) (x : value) :
    flatten_lists = true -> items !! index = Some v ->
    reaches flatten_lists v way x ->
    reaches flatten_lists (VList items) (VInt (Z.of_nat index) :: way) x.

(** The last value under [k] among items. *)
Fixpoint last_value {V : Type} (k : string) (items : list (string * V))
  : option V :=
  match items with
  | [] => None
  | (k', v) :: items' =>
      match last_value k items' with
      | Some v' => Some v'
      | None => if String.eqb k k' then Some v else None
      end
  end.

(** The block that does nothing. *)
Definition pass : M unit := fun w => (Ok tt, w).

End Further_statements.

Module Example_further.

(** Objects by their repr: an ndarray, a datetime, a Time. *)
Definition has_prefix (p : string) (v : value) : bool :=
  match v with
  | VObject r => String.prefix p r
  | _ => false
  end.

Definition type_tests : TypeTests := {|
  is_datetime := has_prefix "datetime";
  is_Time := has_prefix "Time";
  is_ndarray := has_prefix "ndarray";
  isoformat := fun _ => "2020-01-01T00:00:00";
|}.

(** A model that is not tagged, with a datetime, an enum member and a
    list. *)
Definition meta : value :=
  VModel "Meta" false
    [("start", VObject "datetime(2020, 1, 1)");
     ("filter", VEnum "Filter" "F158" (VStr "F158"));
     ("groups", VList [VInt 1; VInt 2])].

(** A tagged instance with an array and [meta] below it. *)
Definition image : value :=
  VModel "Image" true [("data", VObject "ndarray(4096, 4096)"); ("meta", meta)].

(** Archive information kept in the name of the leaf class of a field:
    a field of class [archived:...] is annotated. *)
Definition archive_info : ArchiveInfo := {|
  Archive := string;
  get_archive := fun field =>
    match fi_type field with
    | TClass n => n
    | _ => ""
    end;
  has_info := String.prefix "archived:";
|}.

Definition Inner : ModelClass :=
  MkModel "Inner" false
    [("pass_", MkFieldInfo PydanticUndefined None [] (TClass "archived:pass"));
     ("plain", MkFieldInfo PydanticUndefined None [] TInt)].

Definition Outer : ModelClass :=
  MkModel "Outer" false
    [("name", MkFieldInfo PydanticUndefined None [] (TClass "archived:name"));
     ("inner", MkFieldInfo PydanticUndefined None [] (TModel Inner));
     ("bare", MkFieldInfo PydanticUndefined None []
                (TModel (MkModel "Bare" false
                           [("x", MkFieldInfo PydanticUndefined None [] TInt)])))].

(** A dict annotation and a list annotation without type arguments. *)
Definition bare_dict : FieldInfo :=
  MkFieldInfo PydanticUndefined (Some OriginDict) [] (TClass "dict").
Definition bare_list : FieldInfo :=
  MkFieldInfo PydanticUndefined (Some OriginList) [] (TClass "list").

(** The annotation [List[List[int]]]: its argument is no class. *)
Definition list_of_lists : FieldInfo :=
  MkFieldInfo PydanticUndefined (Some OriginList) [ArgAlias "List[int]"] TInt.

(** A model with a required field of a class [get_default] does not know. *)
Definition Unresolved : ModelClass :=
  MkModel "Unresolved" false
    [("count", MkFieldInfo PydanticUndefined None [] TInt);
     ("wcs", MkFieldInfo PydanticUndefined None [] (TClass "gwcs.WCS"))].

End Example_further.

(** ** Definitions used to state the round trip through the tree *)

Section Round_trip_statements.
Context `{Collaborators}.

(** No two items have the same external name. *)
Definition unambiguous (items : list (string * value)) : bool :=
  bool_decide (NoDup (map (fun nv => field_name (fst nv)) items)).

(** An extra of [cls] that the tree gives back as it is: its name has no
    other external name and its value is left as it is by [to_asdf_tree]
    (it is [serialized]: no enum member and no model that is not tagged
    below dicts and lists). *)
Definition plain_extra (cls : ModelClass) (kv : string * value) : bool :=
  negb (is_extra cls (fst kv))
  || (String.eqb (field_name (fst kv)) (fst kv) && serialized (snd kv)).

(** [kept_model cls items]: the items of an instance of [cls] are
    [unambiguous], its extras are plain, a field of an enum type holds a
    [serialized] value, and the same holds for every model that is not
    tagged and is held by a field of model type, or by an element of a
    field of type [List[T]] or a value of a field of type [Dict[K, V]];
    [kept_type] and [kept_field] follow the annotation of a field as the
    validator does. *)
Fixpoint kept_type (t : pytype) (v : value) {struct t} : bool :=
  match t with
  | TModel m =>
      match v with
      | VModel _ false items => kept_model m items
      | _ => true
      end
  | TEnum _ _ _ => serialized v
  | _ => true
  end

with kept_model (cls : ModelClass) (items : list (string * value))
  {struct cls} : bool :=
  match cls with
  | MkModel _ _ model_fields =>
      unambiguous items
      && forallb (plain_extra cls) items
      && forallb (fun '(name, field) =>
                    match dict_get name items with
                    | Some x => kept_field field x
                    | None => true
                    end) model_fields
  end

with kept_field (field : FieldInfo) (v : value) {struct field} : bool :=
  match field with
  | MkFieldInfo _ origin args t =>
      match origin with
      | Some OriginList =>
          match args, v with
          | [ArgClass a], VList items => forallb (kept_type a) items
          | _, _ => true
          end
      | Some OriginDict =>
          match args, v with
          | [ArgClass _; ArgClass a], VDict items =>
              forallb (fun '(_, x) => kept_type a x) items
          | _, _ => true
          end
      | _ => kept_type t v
      end
  end.

(** No model instance below [v], tagged or not. *)
Fixpoint model_free (v : value) {struct v} : bool :=
  match v with
  | VModel _ _ _ => false
  | VDict items => forallb (fun '(_, x) => model_free x) items
  | VList items => forallb model_free items
  | VEnum _ _ val => model_free val
  | _ => true
  end.

(** The round trip of a valid instance of [cls] whose items are kept. *)
Definition round_trips (cls : ModelClass) : Prop :=
  forall items,
    construct cls items = Ok items -> kept_model cls items = true ->
    construct cls (to_asdf_tree items) = Ok items.

(** The tree of a valid instance of [cls] without tagged models below it
    has no model left in it. *)
Definition flattens (cls : ModelClass) : Prop :=
  forall items,
    construct cls items = Ok items -> kept_model cls items = true ->
    forallb (fun '(_, x) => tagged_free x) items = true ->
    Forall (fun kv => model_free (snd kv) = true) (to_asdf_tree items).

End Round_trip_statements.

(** * Properties *)

(** ** Dicts *)

Lemma dict_get_set_eq {V : Type} (k : string) (v : V) (d : list (string * V)) :
  dict_get k (dict_set k v d) = Some v.
Proof.
  induction d as [|[k' v'] d IH]; simpl.
  - by rewrite String.eqb_refl.
  - destruct (String.eqb k k') eqn:E; simpl.
    + by rewrite String.eqb_refl.
    + by rewrite E.
Qed.

Lemma dict_get_set_ne {V : Type} (k k' : string) (v : V) (d : list (string * V)) :
  k <> k' -> dict_get k' (dict_set k v d) = dict_get k' d.
Proof.
  intros Hne. induction d as [|[k0 v0] d IH]; simpl.
  - destruct (String.eqb k' k) eqn:E; [|done].
    apply String.eqb_eq in E. congruence.
  - destruct (String.eqb k k0) eqn:E; simpl.
    + apply String.eqb_eq in E. subst k0.
      destruct (String.eqb k' k) eqn:E'; [|done].
      apply String.eqb_eq in E'. congruence.
    + destruct (String.eqb k' k0); [done|apply IH].
Qed.

Lemma dict_set_fresh {V : Type} (k : string) (v : V) (d : list (string * V)) :
  ~ In k (map fst d) -> dict_set k v d = (d ++ [(k, v)])%list.
Proof.
  induction d as [|[k' v'] d IH]; simpl; [done|].
  intros Hn. destruct (String.eqb k k') eqn:E.
  - apply String.eqb_eq in E. subst. tauto.
  - rewrite IH; [done|tauto].
Qed.

Lemma dict_set_keys {V : Type} (k k' : string) (v : V) (d : list (string * V)) :
  In k' (map fst (dict_set k v d)) <-> k' = k \/ In k' (map fst d).
Proof.
  induction d as [|[k0 v0] d IH]; simpl.
  - intuition.
  - destruct (String.eqb k k0) eqn:E; simpl.
    + apply String.eqb_eq in E. subst. intuition.
    + rewrite IH. intuition.
Qed.

Lemma fold_dict_set_keys {V : Type} (items acc : list (string * V)) (k : string) :
  In k (map fst (fold_left (fun d kv => dict_set (fst kv) (snd kv) d) items acc))
  <-> In k (map fst acc) \/ In k (map fst items).
Proof.
  revert acc. induction items as [|[k0 v0] items IH]; intros acc; simpl.
  - intuition.
  - rewrite IH, dict_set_keys. intuition.
Qed.

Lemma fold_dict_set_fresh {V : Type} (items acc : list (string * V)) :
  NoDup (map fst (acc ++ items)) ->
  fold_left (fun d kv => dict_set (fst kv) (snd kv) d) items acc
  = (acc ++ items)%list.
Proof.
  revert acc. induction items as [|[k v] items IH]; intros acc Hnd; simpl.
  - by rewrite app_nil_r.
  - rewrite dict_set_fresh.
    + rewrite IH; rewrite <- app_assoc; simpl; done.
    + rewrite map_app in Hnd. simpl in Hnd.
      apply NoDup_app in Hnd as (_ & Hdisj & _).
      intros Hin. apply (Hdisj k); [by apply list_elem_of_In|].
      apply list_elem_of_In. simpl. by left.
Qed.

Lemma dict_of_items_nodup {V : Type} (items : list (string * V)) :
  NoDup (map fst items) -> dict_of_items items = items.
Proof. intros Hnd. unfold dict_of_items. by rewrite fold_dict_set_fresh. Qed.

Lemma dict_of_items_keys {V : Type} (items : list (string * V)) (k : string) :
  In k (map fst (dict_of_items items)) <-> In k (map fst items).
Proof. unfold dict_of_items. rewrite fold_dict_set_keys. simpl. intuition. Qed.

Section Properties.
Context `{Collaborators}.
Local Open Scope result_scope.

(** ** to_asdf_tree *)

Lemma recurse_tree_model (cls : string) (fields : list (string * value)) :
  recurse_tree (VModel cls false fields) = py_dict (to_asdf_tree fields).
Proof.
  simpl. unfold to_asdf_tree. do 2 f_equal.
  rewrite map_map. apply map_ext. by intros [name v].
Qed.

Lemma to_asdf_tree_items (self : list (string * value)) :
  to_asdf_tree self
  = dict_of_items (map (fun '(name, v) => (field_name name, recurse_tree v)) self).
Proof.
  unfold to_asdf_tree. f_equal. rewrite map_map. apply map_ext. by intros [name v].
Qed.

(** C8.  [to_asdf_tree] transforms the fields of an instance by
    [recurse_tree]: a nested model that is not tagged is replaced by its own
    tree, a tagged one is left as it is, a dict is rebuilt with the same
    keys and transformed values, a list with transformed elements in the
    same order, an enum member is replaced by its value, any other value is
    returned unchanged; and every field is found in the output under
    [field_name] of its name, the output being exactly the renamed and
    transformed items when the external names are pairwise distinct. *)
Theorem to_asdf_tree_transforms :
  (forall cls fields,
      recurse_tree (VModel cls false fields) = py_dict (to_asdf_tree fields))
  /\ (forall cls fields,
         recurse_tree (VModel cls true fields) = VModel cls true fields)
  /\ (forall items,
         recurse_tree (VDict items)
         = VDict (map (fun '(key, v) => (key, recurse_tree v)) items)
         /\ map fst (map (fun '(key, v) => (key, recurse_tree v)) items)
            = map fst items)
  /\ (forall items, recurse_tree (VList items) = VList (map recurse_tree items))
  /\ (forall cls member val, recurse_tree (VEnum cls member val) = val)
  /\ (recurse_tree VNone = VNone
      /\ (forall b, recurse_tree (VBool b) = VBool b)
      /\ (forall z, recurse_tree (VInt z) = VInt z)
      /\ (forall s, recurse_tree (VStr s) = VStr s)
      /\ (forall r, recurse_tree (VObject r) = VObject r))
  /\ (forall self name,
         In name (map fst self) ->
         In (field_name name) (map fst (to_asdf_tree self)))
  /\ (forall self,
         NoDup (map (fun nv => field_name (fst nv)) self) ->
         to_asdf_tree self
         = map (fun '(name, v) => (field_name name, recurse_tree v)) self).
Proof.
  split; [apply recurse_tree_model|].
  split; [done|].
  split.
  { intros items. split; [done|].
    rewrite map_map. apply map_ext. by intros [k v]. }
  split; [done|]. split; [done|]. split; [done|].
  split.
  - intros self name Hin. rewrite to_asdf_tree_items.
    apply dict_of_items_keys. rewrite map_map.
    apply in_map_iff in Hin as [[n v] [Hn Hin]]. simpl in Hn. subst n.
    apply in_map_iff. exists (name, v). split; [done|exact Hin].
  - intros self Hnd. rewrite to_asdf_tree_items.
    apply dict_of_items_nodup. rewrite map_map.
    erewrite map_ext; [exact Hnd|]. by intros [n v].
Qed.

(** ** flat_items *)

Lemma join_path_field_index (name : string) (index : nat) :
  join_path [VStr name; VInt (Z.of_nat index)]
  = name ++ "." ++ pretty (Z.of_nat index).
Proof. reflexivity. Qed.

Lemma recurse_leaf (flatten_lists : bool) (v : value) (path : list value) :
  is_leaf v = true ->
  recurse flatten_lists v path = [(join_path path, unwrap v)].
Proof.
  induction v; intros Hleaf; try reflexivity; try discriminate Hleaf.
  simpl. apply IHv. exact Hleaf.
Qed.

Lemma recurse_list_unfold (items : list value) (path : list value) (start : nat) :
  (fix enumerate (index : nat) (l : list value) {struct l}
     : list (string * value) :=
     match l with
     | [] => []
     | v :: l' =>
         (recurse true v (path ++ [VInt (Z.of_nat index)])
          ++ enumerate (S index) l')%list
     end) start items
  = concat (imap (fun index v =>
                    recurse true v (path ++ [VInt (Z.of_nat (start + index))]))
                 items).
Proof.
  revert start. induction items as [|v items IH]; intros start; [done|].
  simpl. rewrite IH. rewrite Nat.add_0_r. do 2 f_equal.
  apply imap_ext. intros i x _. simpl. by rewrite Nat.add_succ_r.
Qed.

Lemma recurse_list (items : list value) (path : list value) :
  recurse true (VList items) path
  = concat (imap (fun index v =>
                    recurse true v (path ++ [VInt (Z.of_nat index)])) items).
Proof. simpl. by rewrite recurse_list_unfold. Qed.

Lemma concat_imap_singleton {A B : Type} (f : nat -> A -> list B)
  (g : nat -> A -> B) (l : list A) :
  (forall i x, l !! i = Some x -> f i x = [g i x]) ->
  concat (imap f l) = imap g l.
Proof.
  revert f g. induction l as [|x l IH]; intros f g Hfg; [done|].
  simpl. rewrite (Hfg 0%nat x eq_refl). simpl. f_equal.
  apply IH. intros i y Hi. apply (Hfg (S i) y Hi).
Qed.

(** C9 (amended).  A list-valued field [name] of [N] leaves is flattened,
    with [flatten_lists=True], into [N] entries in order, the one of index
    [i] under the path [name.i] with the (unwrapped) element as value; with
    [flatten_lists=False] the field yields one entry, the whole list under
    [name], whatever its elements are.  In both modes a model, tagged or
    not, is recursed into field by field, an enum member is replaced by its
    value, and [flat_items] of an instance is the concatenation of what its
    fields yield. *)
Theorem flat_items_list_field (name : string) (items : list value) :
  (Forall (fun v => is_leaf v = true) items ->
   recurse true (VList items) [VStr name]
   = imap (fun index v => (name ++ "." ++ pretty (Z.of_nat index), unwrap v))
          items
   /\ length (recurse true (VList items) [VStr name]) = length items)
  /\ recurse false (VList items) [VStr name] = [(name, VList items)]
  /\ (forall flatten_lists cls tagged fields path,
         recurse flatten_lists (VModel cls tagged fields) path
         = concat (map (fun '(name, v) =>
                          recurse flatten_lists v (path ++ [VStr name])) fields))
  /\ (forall flatten_lists cls member val path,
         recurse flatten_lists (VEnum cls member val) path
         = recurse flatten_lists val path)
  /\ (forall flatten_lists cls tagged fields,
         flat_items (VModel cls tagged fields) flatten_lists
         = concat (map (fun '(name, v) =>
                          recurse flatten_lists v [VStr name]) fields)).
Proof.
  split.
  - intros Hleaf.
    assert (Heq : recurse true (VList items) [VStr name]
                  = imap (fun index v =>
                            (name ++ "." ++ pretty (Z.of_nat index), unwrap v))
                         items).
    { rewrite recurse_list. apply concat_imap_singleton.
      intros i x Hi. rewrite recurse_leaf.
      - reflexivity.
      - rewrite Forall_forall in Hleaf. apply Hleaf.
        by eapply list_elem_of_lookup_2. }
    split; [exact Heq|]. rewrite Heq. apply length_imap.
  - repeat split; reflexivity.
Qed.

(** ** make_default *)

Lemma make_default_loop (fields : list (string * FieldInfo))
  (kwargs defaults : list (string * value)) :
  (fix loop (fields : list (string * FieldInfo))
     (defaults : list (string * value)) {struct fields}
     : result (list (string * value)) :=
     match fields with
     | [] => Ok defaults
     | (name, field) :: fields' =>
         let name := field_name name in
         r <- resolve_field name field kwargs ;;
         match r with
         | Some v => loop fields' (dict_set name v defaults)
         | None => loop fields' defaults
         end
     end) fields defaults
  = build_defaults fields kwargs defaults.
Proof.
  revert defaults. induction fields as [|[name field] fields IH]; intros defaults.
  - reflexivity.
  - simpl. destruct (resolve_field (field_name name) field kwargs) as [[v|]|e];
      simpl; [apply IH|apply IH|reflexivity].
Qed.

Lemma make_default_unfold (cls : ModelClass)
  (data : option (list (value * value))) (kwargs : list (string * value)) :
  make_default cls data kwargs
  = (defaults <- build_defaults (cls_fields cls) kwargs [] ;;
     mix_in cls defaults data).
Proof. destruct cls as [name tagged fields]. simpl. by rewrite make_default_loop. Qed.

Lemma resolve_field_static (name : string) (field : FieldInfo)
  (kwargs : list (string * value)) (d : value) :
  fi_default field = Default d -> d <> VNone ->
  resolve_field name field kwargs = Ok (Some d).
Proof.
  destruct field as [default origin args type_]. simpl. intros -> Hd.
  destruct d; try reflexivity. congruence.
Qed.

Lemma resolve_field_no_static (name : string) (field : FieldInfo)
  (kwargs : list (string * value)) :
  no_static_default field ->
  resolve_field name field kwargs
  = match get_adaptor field with
    | Some adaptor => Ok (Some (adaptor kwargs))
    | None =>
        if is_not_None (special_cases name) then Ok (Some (special_cases name))
        else
          match fi_origin field with
          | Some OriginDict =>
              v <- default_dict field name kwargs ;; Ok (Some v)
          | Some OriginList =>
              v <- default_list field kwargs ;; Ok (Some v)
          | _ => if_not_None (get_default (fi_type field) kwargs)
          end
    end.
Proof.
  destruct field as [default origin args type_].
  unfold no_static_default. simpl. intros [-> | ->]; simpl.
  all: destruct (get_adaptor _); [reflexivity|].
  all: destruct (is_not_None (special_cases name)); [reflexivity|].
  all: destruct origin as [[| | |]|]; simpl; try reflexivity.
  all: unfold default_dict, default_list; simpl.
  all: destruct (multiple_values _ kwargs); [reflexivity|].
  all: try (destruct args as [|k [|v [|? ?]]]; simpl; try reflexivity;
            fold (get_default_arg k kwargs); fold (get_default_arg v kwargs);
            destruct (get_default_arg k kwargs); simpl; try reflexivity;
            destruct (get_default_arg v kwargs); simpl; try reflexivity;
            by destruct (forallb hashable _)).
  all: change (fun type_ : type_arg =>
                 match type_ with
                 | ArgClass t => get_default t kwargs
                 | ArgAlias _ => not_a_class kwargs
                 end)
         with (fun type_ : type_arg => get_default_arg type_ kwargs).
  all: by destruct (mapM _ args).
Qed.

Lemma special_cases_table (name : string) :
  special_cases name <> VNone
  <-> name = "read_pattern" \/ name = "p_exptype"
      \/ name = "coordinate_distortion_transform"
      \/ name = "tweakreg_catalog_name".
Proof.
  unfold special_cases.
  destruct (String.eqb_spec name "read_pattern") as [->|H1]; [by intuition|].
  destruct (String.eqb_spec name "p_exptype") as [->|H2]; [by intuition|].
  destruct (String.eqb_spec name "coordinate_distortion_transform") as [->|H3];
    [by intuition|].
  destruct (String.eqb_spec name "tweakreg_catalog_name") as [->|H4];
    [by intuition|].
  intuition.
Qed.

Lemma is_not_None_spec (x : value) : is_not_None x = true <-> x <> VNone.
Proof. destruct x; simpl; split; congruence. Qed.

Lemma multiple_values_none (params : list string)
  (kwargs : list (string * value)) :
  multiple_values params kwargs = None
  <-> forall key, In key params -> dict_get key kwargs = None.
Proof.
  unfold multiple_values.
  induction kwargs as [|[k v] kwargs IH]; simpl; [done|].
  destruct (existsb (String.eqb k) params) eqn:Hk.
  - split; [done|]. intros Hnone. exfalso.
    apply existsb_exists in Hk as (p & Hp & Heq).
    apply String.eqb_eq in Heq. subst p.
    specialize (Hnone k Hp). by rewrite String.eqb_refl in Hnone.
  - rewrite IH. split.
    + intros Hnone key Hin.
      destruct (String.eqb_spec key k) as [->|Hne]; [|by apply Hnone].
      exfalso. apply not_true_iff_false in Hk. apply Hk.
      apply existsb_exists. exists k. split; [done|apply String.eqb_refl].
    + intros Hnone key Hin. specialize (Hnone key Hin).
      by destruct (String.eqb key k).
Qed.

Lemma multiple_values_some (params : list string)
  (kwargs : list (string * value)) (key : string) (v : value) :
  In key params -> dict_get key kwargs = Some v ->
  exists key',
    In key' params
    /\ multiple_values params kwargs
       = Some (TypeError ("got multiple values for argument '" ++ key' ++ "'")).
Proof.
  intros Hin. unfold multiple_values.
  induction kwargs as [|[k x] kwargs IH]; simpl; [done|].
  destruct (existsb (String.eqb k) params) eqn:Hk.
  - intros _. exists k. split; [|done].
    apply existsb_exists in Hk as (p & Hp & Heq).
    apply String.eqb_eq in Heq. by subst p.
  - destruct (String.eqb_spec key k) as [->|Hne]; [|exact IH].
    exfalso. apply not_true_iff_false in Hk. apply Hk.
    apply existsb_exists. exists k. split; [done|apply String.eqb_refl].
Qed.

Lemma multiple_values_one (param : string) (kwargs : list (string * value))
  (v : value) :
  dict_get param kwargs = Some v ->
  multiple_values [param] kwargs
  = Some (TypeError ("got multiple values for argument '" ++ param ++ "'")).
Proof.
  intros Hv.
  destruct (multiple_values_some [param] kwargs param v) as (key & Hin & ->);
    [by left|done|].
  destruct Hin as [<-|[]]. done.
Qed.

Lemma get_default_collision (field_type : pytype)
  (kwargs : list (string * value)) (e : exn) :
  multiple_values ["field_type"] kwargs = Some e ->
  get_default field_type kwargs = Raise e.
Proof. intros He. destruct field_type; simpl; by rewrite He. Qed.

Lemma get_default_no_collision (field_type : pytype)
  (kwargs : list (string * value)) :
  multiple_values ["field_type"] kwargs = None ->
  get_default field_type kwargs
  = match field_type with
    | TModel m => make_default m None kwargs
    | TFloat | TInt => Ok (VInt (-999999))
    | TStr => Ok (VStr "dummy value")
    | TBool => Ok (VBool false)
    | TEnum _ first _ => Ok (snd first)
    | TClass _ => Ok VNone
    end.
Proof. intros He. destruct field_type; simpl; by rewrite He. Qed.

(** C1 (amended).  The default of a field is resolved by the first rule
    that applies, in this order: the static default of the schema when it
    is neither undefined nor [None]; the [make_default] of the adaptor bound
    to the field, given the keyword arguments; the literal of
    [special_cases] for the four names of its table; the default of
    [default_dict] or [default_list] when the origin of the annotation is a
    dict or a list; the default of [get_default] for the leaf type.  A rule
    is only reached when no earlier rule applies, and [make_default] runs
    these rules over the fields of the class in order.  When no keyword
    argument is named [field_type], [get_default] recurses into a nested
    model and is -999999 for int and float, "dummy value" for str, [False]
    for bool and the value of the first member for an enum; a keyword of
    that name makes [get_default] raise a [TypeError] for every type, as a
    keyword named [field] does for [default_list] and one named [field] or
    [name] for [default_dict]. *)
Theorem make_default_priority (name : string) (field : FieldInfo)
  (kwargs : list (string * value)) :
  (forall d, fi_default field = Default d -> d <> VNone ->
             resolve_field name field kwargs = Ok (Some d))
  /\ (forall adaptor,
         no_static_default field -> get_adaptor field = Some adaptor ->
         resolve_field name field kwargs = Ok (Some (adaptor kwargs)))
  /\ (no_static_default field -> get_adaptor field = None ->
      special_cases name <> VNone ->
      resolve_field name field kwargs = Ok (Some (special_cases name)))
  /\ (no_static_default field -> get_adaptor field = None ->
      special_cases name = VNone -> fi_origin field = Some OriginDict ->
      resolve_field name field kwargs
      = (v <- default_dict field name kwargs ;; Ok (Some v)))
  /\ (no_static_default field -> get_adaptor field = None ->
      special_cases name = VNone -> fi_origin field = Some OriginList ->
      resolve_field name field kwargs
      = (v <- default_list field kwargs ;; Ok (Some v)))
  /\ (no_static_default field -> get_adaptor field = None ->
      special_cases name = VNone ->
      fi_origin field <> Some OriginDict -> fi_origin field <> Some OriginList ->
      resolve_field name field kwargs
      = if_not_None (get_default (fi_type field) kwargs))
  /\ (special_cases name <> VNone
      <-> name = "read_pattern" \/ name = "p_exptype"
          \/ name = "coordinate_distortion_transform"
          \/ name = "tweakreg_catalog_name")
  /\ (dict_get "field_type" kwargs = None ->
      get_default TInt kwargs = Ok (VInt (-999999))
      /\ get_default TFloat kwargs = Ok (VInt (-999999))
      /\ get_default TStr kwargs = Ok (VStr "dummy value")
      /\ get_default TBool kwargs = Ok (VBool false)
      /\ (forall n first rest,
             get_default (TEnum n first rest) kwargs = Ok (snd first))
      /\ (forall m, get_default (TModel m) kwargs = make_default m None kwargs))
  /\ (forall v,
         dict_get "field_type" kwargs = Some v ->
         forall field_type,
           get_default field_type kwargs
           = Raise (TypeError "got multiple values for argument 'field_type'"))
  /\ (forall v,
         dict_get "field" kwargs = Some v ->
         default_list field kwargs
         = Raise (TypeError "got multiple values for argument 'field'"))
  /\ (forall v,
         dict_get "field" kwargs = Some v \/ dict_get "name" kwargs = Some v ->
         exists msg, default_dict field name kwargs = Raise (TypeError msg))
  /\ (forall cls data,
         make_default cls data kwargs
         = (defaults <- build_defaults (cls_fields cls) kwargs [] ;;
            mix_in cls defaults data))
  /\ (forall fields defaults,
         build_defaults ((name, field) :: fields) kwargs defaults
         = (r <- resolve_field (field_name name) field kwargs ;;
            build_defaults fields kwargs
              match r with
              | Some v => dict_set (field_name name) v defaults
              | None => defaults
              end)).
Proof.
  split; [intros d; apply resolve_field_static|].
  split.
  { intros adaptor Hs Ha. rewrite resolve_field_no_static by done. by rewrite Ha. }
  split.
  { intros Hs Ha Hsp. rewrite resolve_field_no_static by done. rewrite Ha.
    apply is_not_None_spec in Hsp. by rewrite Hsp. }
  split.
  { intros Hs Ha Hsp Ho. rewrite resolve_field_no_static by done.
    by rewrite Ha, Hsp, Ho. }
  split.
  { intros Hs Ha Hsp Ho. rewrite resolve_field_no_static by done.
    by rewrite Ha, Hsp, Ho. }
  split.
  { intros Hs Ha Hsp Hd Hl. rewrite resolve_field_no_static by done.
    rewrite Ha, Hsp. simpl.
    destruct (fi_origin field) as [[| | |]|]; done. }
  split; [apply special_cases_table|].
  split.
  { intros Hnone.
    assert (Hno : multiple_values ["field_type"] kwargs = None).
    { apply multiple_values_none. by intros key [<-|[]]. }
    repeat split; intros; by rewrite get_default_no_collision. }
  split.
  { intros v Hv field_type.
    apply get_default_collision, (multiple_values_one _ _ v Hv). }
  split.
  { intros v Hv. unfold default_list.
    by rewrite (multiple_values_one _ _ v Hv). }
  split.
  { intros v [Hv|Hv]; unfold default_dict.
    - destruct (multiple_values_some ["field"; "name"] kwargs "field" v)
        as (key & _ & ->); [simpl; tauto|done|eauto].
    - destruct (multiple_values_some ["field"; "name"] kwargs "name" v)
        as (key & _ & ->); [simpl; tauto|done|eauto]. }
  split; [intros cls data; apply make_default_unfold|].
  intros fields defaults. simpl.
  by destruct (resolve_field (field_name name) field kwargs) as [[v|]|e].
Qed.

(** C2 (amended).  For the model with [name: str], [count: int] and
    [tags: List[str]], none with a static default, an adaptor or an alias,
    a validator that accepts the values below as they are, and keyword
    arguments none of which is named [field_type] or [field],
    [make_default()] has [name = "dummy value"], [count = -999999] and
    [tags = ["dummy value"]], one default for the one type argument of the
    list; with [data = {"name": "M1"}] it has [name = "M1"] and the same
    [count] and [tags]. *)
Theorem make_default_scenario (kwargs : list (string * value)) :
  dict_get "field_type" kwargs = None -> dict_get "field" kwargs = None ->
  field_name "name" = "name" -> field_name "count" = "count" ->
  field_name "tags" = "tags" ->
  get_adaptor Example.name_field = None ->
  get_adaptor Example.count_field = None ->
  get_adaptor Example.tags_field = None ->
  validate Example.name_field (VStr "dummy value") = Some (VStr "dummy value") ->
  validate Example.name_field (VStr "M1") = Some (VStr "M1") ->
  validate Example.count_field (VInt (-999999)) = Some (VInt (-999999)) ->
  validate Example.tags_field (VList [VStr "dummy value"])
  = Some (VList [VStr "dummy value"]) ->
  make_default Example.Scenario None kwargs
  = Ok (instance Example.Scenario
          [("name", VStr "dummy value"); ("count", VInt (-999999));
           ("tags", VList [VStr "dummy value"])])
  /\ make_default Example.Scenario (Some [(VStr "name", VStr "M1")]) kwargs
     = Ok (instance Example.Scenario
             [("name", VStr "M1"); ("count", VInt (-999999));
              ("tags", VList [VStr "dummy value"])]).
Proof.
  intros Kt Kf Hn Hc Ht An Ac At Vd Vm Vc Vt.
  assert (Ktype : multiple_values ["field_type"] kwargs = None).
  { apply multiple_values_none. by intros key [<-|[]]. }
  assert (Kfield : multiple_values ["field"] kwargs = None).
  { apply multiple_values_none. by intros key [<-|[]]. }
  assert (Hdefaults :
            build_defaults (cls_fields Example.Scenario) kwargs []
            = Ok [("name", VStr "dummy value"); ("count", VInt (-999999));
                  ("tags", VList [VStr "dummy value"])]).
  { unfold Example.Scenario. cbn [cls_fields build_defaults].
    rewrite Hn, Hc, Ht.
    rewrite !resolve_field_no_static by (by left).
    rewrite An, Ac, At. cbn [is_not_None special_cases String.eqb Ascii.eqb
                             Bool.eqb fi_origin fi_type fi_args
                             Example.name_field Example.count_field
                             Example.tags_field].
    unfold default_list, if_not_None.
    cbn [fi_args Example.tags_field mapM get_default_arg].
    rewrite Kfield, !get_default_no_collision by done. reflexivity. }
  assert (Hconstruct : forall n,
            validate Example.name_field (VStr n) = Some (VStr n) ->
            construct Example.Scenario
              [("name", VStr n); ("count", VInt (-999999));
               ("tags", VList [VStr "dummy value"])]
            = Ok [("name", VStr n); ("count", VInt (-999999));
                  ("tags", VList [VStr "dummy value"])]).
  { intros n Vn. unfold construct, is_extra. simpl.
    rewrite Hn, Hc, Ht. simpl.
    fold Example.name_field Example.count_field Example.tags_field.
    unfold validated. rewrite Vn, Vc, Vt. reflexivity. }
  assert (Hmerge : forall data,
            keywords
              (merge_dicts
                 (model_dump
                    [("name", VStr "dummy value"); ("count", VInt (-999999));
                     ("tags", VList [VStr "dummy value"])])
                 [(VStr "name", VStr data)])
            = Ok [("name", VStr data); ("count", VInt (-999999));
                  ("tags", VList [VStr "dummy value"])]) by reflexivity.
  split; rewrite make_default_unfold, Hdefaults; unfold mix_in; cbn [rbind];
    rewrite (Hconstruct _ Vd); cbn [rbind].
  - change (keywords _)
      with (Ok [("name", VStr "dummy value"); ("count", VInt (-999999));
                ("tags", VList [VStr "dummy value"])]).
    cbn [rbind]. by rewrite (Hconstruct _ Vd).
  - rewrite Hmerge. cbn [rbind]. by rewrite (Hconstruct _ Vm).
Qed.

(** ** The validation flags *)

Lemma config_of_set_config_same (a b : Ref) (c : ConfigDict) (w : World) :
  cls_name (ref_cls a) = cls_name (ref_cls b) ->
  config_of (set_config a c w) b = c.
Proof.
  intros Heq. unfold config_of, set_config. simpl.
  by rewrite Heq, lookup_insert_eq.
Qed.

Lemma config_of_set_config_other (a b : Ref) (c : ConfigDict) (w : World) :
  cls_name (ref_cls a) <> cls_name (ref_cls b) ->
  config_of (set_config a c w) b = config_of w b.
Proof.
  intros Hne. unfold config_of, set_config. simpl.
  by rewrite lookup_insert_ne.
Qed.

Lemma pause_enter_same (a b : Ref) (w : World) :
  cls_name (ref_cls a) = cls_name (ref_cls b) ->
  validation_paused (pause_enter a w) b.
Proof.
  intros Heq. unfold validation_paused, pause_enter, set_revalidate_instances.
  rewrite config_of_set_config_same by done. simpl.
  unfold set_validate_assignment. by rewrite config_of_set_config_same.
Qed.

Lemma pause_enter_other (a b : Ref) (w : World) :
  cls_name (ref_cls a) <> cls_name (ref_cls b) ->
  config_of (pause_enter a w) b = config_of w b.
Proof.
  intros Hne.
  unfold pause_enter, set_revalidate_instances, set_validate_assignment.
  by rewrite !config_of_set_config_other.
Qed.

Lemma pause_enter_objects (a : Ref) (w : World) :
  objects (pause_enter a w) = objects w.
Proof. reflexivity. Qed.

Lemma pause_enter_events (a : Ref) (w : World) :
  events (pause_enter a w) = events w.
Proof. reflexivity. Qed.

Lemma restored_enabled (self : Ref) (w : World) :
  validation_enabled
    (set_revalidate_instances self "always"
       (set_validate_assignment self true w)) self.
Proof.
  unfold validation_enabled, set_revalidate_instances.
  rewrite config_of_set_config_same by done. simpl.
  unfold set_validate_assignment. by rewrite config_of_set_config_same.
Qed.

Lemma model_validate_configs (self : Ref) (w : World) :
  configs (snd (model_validate self w)) = configs w.
Proof.
  unfold model_validate.
  destruct (String.eqb _ _); [|done].
  by destruct (construct _ _).
Qed.

Lemma model_validate_events (self : Ref) (w : World) :
  revalidate_instances (config_of w self) = "always" ->
  events (snd (model_validate self w))
  = (events w ++ [Revalidate (ref_id self)])%list.
Proof.
  intros Hr. unfold model_validate. rewrite Hr. simpl.
  by destruct (construct _ _).
Qed.

Lemma pause_exit_enabled (self : Ref) (revalidate_on_exit : bool) (w : World) :
  validation_enabled (snd (pause_exit self revalidate_on_exit w)) self.
Proof.
  unfold pause_exit. destruct revalidate_on_exit; simpl.
  - unfold validation_enabled, config_of. rewrite model_validate_configs.
    apply restored_enabled.
  - apply restored_enabled.
Qed.

Lemma pause_exit_events (self : Ref) (revalidate_on_exit : bool) (w : World) :
  events (snd (pause_exit self revalidate_on_exit w))
  = (events w
     ++ if revalidate_on_exit then [Revalidate (ref_id self)] else [])%list.
Proof.
  unfold pause_exit. destruct revalidate_on_exit; simpl.
  - rewrite model_validate_events; [done|]. apply restored_enabled.
  - by rewrite app_nil_r.
Qed.

Lemma pause_validation_world (self : Ref) (revalidate_on_exit : bool)
  (block : M unit) (w : World) :
  snd (pause_validation self revalidate_on_exit block w)
  = snd (pause_exit self revalidate_on_exit (snd (block (pause_enter self w)))).
Proof.
  unfold pause_validation. destruct (block _) as [r w1]. simpl.
  by destruct (pause_exit _ _ w1) as [[[]|e] w2].
Qed.

Lemma pause_validation_outcome (self : Ref) (revalidate_on_exit : bool)
  (block : M unit) (w : World) :
  fst (pause_validation self revalidate_on_exit block w)
  = match fst (pause_exit self revalidate_on_exit
                 (snd (block (pause_enter self w)))) with
    | Ok _ => fst (block (pause_enter self w))
    | Raise e => Raise e
    end.
Proof.
  unfold pause_validation. destruct (block _) as [r w1]. simpl.
  by destruct (pause_exit _ _ w1) as [[[]|e] w2].
Qed.

(** C3 (amended).  The flags that [pause_validation] toggles are held by
    the class: entering the scope on [a] pauses validation for every
    instance [b] of the class of [a], so that an assignment to [b] stores
    its value unvalidated, and leaves the configuration of an instance of
    another class, and the outcome of an assignment to it, as they were. *)
Theorem pause_validation_per_class (a b : Ref) (w : World) :
  (cls_name (ref_cls a) = cls_name (ref_cls b) ->
   validation_paused (pause_enter a w) b
   /\ forall key v,
       setattr b key v (pause_enter a w)
       = (Ok tt, store b key v (pause_enter a w)))
  /\ (cls_name (ref_cls a) <> cls_name (ref_cls b) ->
      config_of (pause_enter a w) b = config_of w b
      /\ forall key v,
          fst (setattr b key v (pause_enter a w)) = fst (setattr b key v w)).
Proof.
  split.
  - intros Heq. pose proof (pause_enter_same a b w Heq) as [Hva Hri].
    split; [by split|]. intros key v. unfold setattr. by rewrite Hva.
  - intros Hne. pose proof (pause_enter_other a b w Hne) as Hcfg.
    split; [done|]. intros key v. unfold setattr. rewrite Hcfg.
    destruct (validate_assignment _); [|done].
    destruct (dict_get _ _); [|done]. by destruct (validate _ _).
Qed.

(** ** Validation of an instance *)

Lemma dict_get_In {V : Type} (k : string) (v : V) (d : list (string * V)) :
  dict_get k d = Some v -> In (k, v) d.
Proof.
  induction d as [|[k' v'] d IH]; simpl; [done|].
  destruct (String.eqb_spec k k') as [->|Hne].
  - intros [= ->]. by left.
  - intros Hd. right. by apply IH.
Qed.

Lemma mapM_raises {A B : Type} (f : A -> result B) (l : list A) (x : A) (e : exn) :
  In x l -> f x = Raise e ->
  exists y e', In y l /\ f y = Raise e' /\ mapM f l = Raise e'.
Proof.
  induction l as [|a l IH]; simpl; [done|].
  intros Hin Hx. destruct (f a) as [b|e0] eqn:Ha.
  - destruct Hin as [->|Hin]; [congruence|].
    destruct (IH Hin Hx) as (y & e' & Hy & Hfy & Hm).
    exists y, e'. rewrite Hm. auto.
  - exists a, e0. auto.
Qed.

Lemma init_field_raises (kwargs : list (string * value))
  (nf : string * FieldInfo) (e : exn) :
  init_field kwargs nf = Raise e -> e = ValidationError (fst nf).
Proof.
  destruct nf as [name field]. unfold init_field, validated. simpl.
  destruct (dict_get (field_name name) kwargs) as [v|].
  - destruct (validate field v); congruence.
  - destruct (dict_get name kwargs) as [v|].
    + destruct (validate field v); congruence.
    + destruct (fi_default field); congruence.
Qed.

Lemma construct_invalid (cls : ModelClass) (items : list (string * value))
  (key : string) (field : FieldInfo) (v : value) :
  dict_get key (cls_fields cls) = Some field ->
  dict_get key items = Some v ->
  (field_name key <> key -> dict_get (field_name key) items = None) ->
  validate field v = None ->
  exists loc, construct cls items = Raise (ValidationError loc).
Proof.
  intros Hfield Hitem Halias Hbad.
  assert (Hinit : init_field items (key, field) = Raise (ValidationError key)).
  { unfold init_field, validated.
    destruct (String.eqb_spec (field_name key) key) as [Heq|Hne].
    - by rewrite Heq, Hitem, Hbad.
    - by rewrite (Halias Hne), Hitem, Hbad. }
  destruct (mapM_raises (init_field items) (cls_fields cls) _ _
              (dict_get_In _ _ _ Hfield) Hinit) as (y & e' & _ & Hy & Hm).
  exists (fst y). unfold construct. rewrite Hm. simpl.
  by rewrite (init_field_raises _ _ _ Hy).
Qed.

Lemma object_of_set_object (self : Ref) (o : Object) (w : World) :
  object_of (set_object self o w) self = o.
Proof. unfold object_of, set_object. simpl. by rewrite lookup_insert_eq. Qed.

Lemma is_private_declared (cls : ModelClass) (key : string) (field : FieldInfo) :
  dict_get key (cls_fields cls) = Some field -> is_private cls key = false.
Proof. intros Hf. unfold is_private. rewrite Hf. apply andb_false_r. Qed.

Lemma object_of_store (self : Ref) (key : string) (v : value) (w : World) :
  is_private (ref_cls self) key = false ->
  obj_items (object_of (store self key v w) self)
  = dict_set key v (obj_items (object_of w self)).
Proof. intros Hp. unfold store. rewrite Hp. by rewrite object_of_set_object. Qed.

Lemma store_configs (self : Ref) (key : string) (v : value) (w : World) :
  configs (store self key v w) = configs w.
Proof. unfold store. by destruct (is_private _ _). Qed.

Lemma store_events (self : Ref) (key : string) (v : value) (w : World) :
  events (store self key v w) = events w.
Proof. unfold store. by destruct (is_private _ _). Qed.

Lemma config_of_store (self other : Ref) (key : string) (v : value) (w : World) :
  config_of (store self key v w) other = config_of w other.
Proof. unfold config_of. by rewrite store_configs. Qed.

Lemma object_of_objects (w1 w2 : World) (self : Ref) :
  objects w1 = objects w2 -> object_of w1 self = object_of w2 self.
Proof. unfold object_of. by intros ->. Qed.

Lemma getitem_store (self : Ref) (key : string) (v : value) (w : World) :
  __getitem__ self key (store self key v w) = Some v.
Proof.
  unfold __getitem__, store.
  destruct (is_private (ref_cls self) key); rewrite object_of_set_object; simpl.
  - destruct (String.eqb_spec key "_validate_setitem") as [->|Hne].
    + unfold _validate_setitem. simpl. by rewrite dict_get_set_eq.
    + apply dict_get_set_eq.
  - apply dict_get_set_eq.
Qed.

Lemma getitem_objects (w1 w2 : World) (self : Ref) (item : string) :
  objects w1 = objects w2 -> __getitem__ self item w1 = __getitem__ self item w2.
Proof. intros Hobj. unfold __getitem__. by rewrite (object_of_objects _ _ self Hobj). Qed.

Lemma setattr_unvalidated (self : Ref) (key : string) (v : value) (w : World) :
  validate_assignment (config_of w self) = false ->
  setattr self key v w = (Ok tt, store self key v w).
Proof. intros Hva. unfold setattr. by rewrite Hva. Qed.

Lemma setattr_entered (self : Ref) (key : string) (v : value) (w : World) :
  setattr self key v (pause_enter self w)
  = (Ok tt, store self key v (pause_enter self w)).
Proof.
  apply setattr_unvalidated. by destruct (pause_enter_same self self w eq_refl).
Qed.

Lemma assign_all_unvalidated (self : Ref) (assignments : list (string * value))
  (w : World) :
  validation_paused w self ->
  fst (assign_all self assignments w) = Ok tt
  /\ validation_paused (snd (assign_all self assignments w)) self.
Proof.
  revert w. induction assignments as [|[key v] rest IH]; intros w Hp; [done|].
  simpl. unfold seq.
  rewrite setattr_unvalidated by (by destruct Hp).
  apply IH. unfold validation_paused. by rewrite config_of_store.
Qed.

(** ** pause_validation *)


(** C10.  On exit [pause_validation] sets [validate_assignment] to [True]
    and [revalidate_instances] to "always", whatever they were on entry.
    Inside an outer scope, where both are off, the exit of an inner scope
    therefore turns both on again, and the rest of the outer block runs in
    that world: there, the assignment of a value that the validator of a
    declared field rejects raises. *)
Theorem pause_validation_exit_enables (self : Ref) (revalidate_on_exit : bool)
  (block : M unit) (w : World) :
  validation_enabled (snd (pause_validation self revalidate_on_exit block w)) self
  /\ (let outer := pause_enter self w in
      validation_paused outer self
      /\ validation_enabled
           (snd (pause_validation self revalidate_on_exit block outer)) self
      /\ forall rest,
          fst (pause_validation self revalidate_on_exit block outer) = Ok tt ->
          seq (pause_validation self revalidate_on_exit block) rest outer
          = rest (snd (pause_validation self revalidate_on_exit block outer)))
  /\ (forall key field v,
        dict_get key (cls_fields (ref_cls self)) = Some field ->
        validate field v = None ->
        fst (setattr self key v
               (snd (pause_validation self revalidate_on_exit block
                       (pause_enter self w))))
        = Raise (ValidationError key)).
Proof.
  split; [rewrite pause_validation_world; apply pause_exit_enabled|].
  split.
  { intros outer.
    split; [by apply pause_enter_same|].
    split; [rewrite pause_validation_world; apply pause_exit_enabled|].
    intros rest Hok. unfold seq.
    destruct (pause_validation _ _ _ outer) as [r w']. simpl in *. by subst r. }
  intros key field v Hfield Hbad. unfold setattr.
  rewrite pause_validation_world.
  destruct (pause_exit_enabled self revalidate_on_exit
              (snd (block (pause_enter self (pause_enter self w)))))
    as [-> _].
  by rewrite Hfield, Hbad.
Qed.

(** ** __setitem__ *)

Lemma pause_exit_objects (self : Ref) (revalidate_on_exit : bool) (w : World) :
  objects (snd (pause_exit self revalidate_on_exit w)) = objects w.
Proof.
  unfold pause_exit. destruct revalidate_on_exit; [|done].
  unfold model_validate. destruct (String.eqb _ _); [|done].
  by destruct (construct _ _).
Qed.

(** C6 (amended).  When [_validate_setitem] is true (the test of the
    attribute in [__setitem__] gives [True]) and validation is not paused
    for the class of the instance ([validate_assignment] is on), the
    item assignment of a value that the validator of the field rejects
    raises a validation error and leaves the world, and so every field of
    the instance, unchanged. *)
Theorem setitem_validates (self : Ref) (key : string) (v : value)
  (field : FieldInfo) (w : World) :
  py_bool (_validate_setitem (object_of w self)) = Ok true ->
  validate_assignment (config_of w self) = true ->
  dict_get key (cls_fields (ref_cls self)) = Some field ->
  validate field v = None ->
  __setitem__ self key v w = (Raise (ValidationError key), w).
Proof.
  intros Hflag Hva Hfield Hbad.
  unfold __setitem__, nullcontext, setattr.
  by rewrite Hflag, Hva, Hfield, Hbad.
Qed.

(** C7.  When [_validate_setitem] is false (the test of the attribute in
    [__setitem__] gives [False]), the item assignment of any value is the
    warning followed by the assignment inside
    [pause_validation(revalidate_on_exit=False)]: it returns normally, emits
    the one runtime warning and nothing else (no revalidation), and stores
    the value as it is. *)
Theorem setitem_without_validation (self : Ref) (key : string) (v : value)
  (w : World) :
  py_bool (_validate_setitem (object_of w self)) = Ok false ->
  __setitem__ self key v w
  = pause_validation self false (setattr self key v)
      (emit (Warn "RuntimeWarning" setitem_warning) w)
  /\ fst (__setitem__ self key v w) = Ok tt
  /\ events (snd (__setitem__ self key v w))
     = (events w ++ [Warn "RuntimeWarning" setitem_warning])%list
  /\ __getitem__ self key (snd (__setitem__ self key v w)) = Some v.
Proof.
  intros Hflag.
  assert (Hrun : __setitem__ self key v w
                 = pause_validation self false (setattr self key v)
                     (emit (Warn "RuntimeWarning" setitem_warning) w)).
  { unfold __setitem__. by rewrite Hflag. }
  split; [exact Hrun|]. rewrite Hrun.
  set (w0 := emit _ w).
  assert (Hset : setattr self key v (pause_enter self w0)
                 = (Ok tt, store self key v (pause_enter self w0)))
    by apply setattr_entered.
  split; [|split].
  - rewrite pause_validation_outcome, Hset. reflexivity.
  - rewrite pause_validation_world, pause_exit_events, Hset. cbn [snd].
    by rewrite store_events, app_nil_r.
  - rewrite pause_validation_world, Hset.
    rewrite (getitem_objects _ (store self key v (pause_enter self w0))).
    + apply getitem_store.
    + apply pause_exit_objects.
Qed.

(** ** Round trip through the tree *)

Lemma dict_get_nodup {V : Type} (k : string) (v : V) (d : list (string * V)) :
  NoDup (map fst d) -> In (k, v) d -> dict_get k d = Some v.
Proof.
  induction d as [|[k' v'] d IH]; simpl; [done|].
  intros Hnd [Heq|Hin].
  - injection Heq as -> ->. by rewrite String.eqb_refl.
  - apply NoDup_cons in Hnd as [Hk Hnd].
    destruct (String.eqb_spec k k') as [->|Hne]; [|by apply IH].
    exfalso. apply Hk. apply list_elem_of_In.
    change k' with (fst (k', v)). by apply in_map.
Qed.

Lemma mapM_Forall2 {A B : Type} (f : A -> result B) (l : list A) (l' : list B) :
  Forall2 (fun x y => f x = Ok y) l l' -> mapM f l = Ok l'.
Proof. induction 1 as [|x y l l' Hxy _ IH]; simpl; [done|]. by rewrite Hxy, IH. Qed.

Lemma to_asdf_tree_nodup (self : list (string * value)) :
  NoDup (map (fun nv => field_name (fst nv)) self) ->
  to_asdf_tree self
  = map (fun nv => (field_name (fst nv), recurse_tree (snd nv))) self.
Proof.
  intros Hnd. rewrite to_asdf_tree_items.
  replace (map (fun '(name, v) => (field_name name, recurse_tree v)) self)
    with (map (fun nv => (field_name (fst nv), recurse_tree (snd nv))) self)
    by (apply map_ext; by intros [n v]).
  apply dict_of_items_nodup. by rewrite map_map.
Qed.

Lemma is_extra_alias (cls : ModelClass) (name : string) (field : FieldInfo) :
  In (name, field) (cls_fields cls) -> is_extra cls (field_name name) = false.
Proof.
  intros Hin. unfold is_extra. apply negb_false_iff, existsb_exists.
  exists (name, field). split; [done|]. simpl.
  by rewrite String.eqb_refl, orb_true_r.
Qed.

Lemma filter_declared (cls : ModelClass) (declared : list (string * value)) :
  Forall (fun nv => exists field, In (fst nv, field) (cls_fields cls)) declared ->
  List.filter (fun '(key, _) => is_extra cls key)
    (map (fun nv => (field_name (fst nv), recurse_tree (snd nv))) declared)
  = [].
Proof.
  induction 1 as [|[name v] declared [field Hin] _ IH]; simpl; [done|].
  by rewrite (is_extra_alias cls name field Hin).
Qed.

Lemma filter_extras (cls : ModelClass) (extras : list (string * value)) :
  Forall (fun kv =>
            is_extra cls (fst kv) = true /\ field_name (fst kv) = fst kv
            /\ recurse_tree (snd kv) = snd kv) extras ->
  List.filter (fun '(key, _) => is_extra cls key)
    (map (fun nv => (field_name (fst nv), recurse_tree (snd nv))) extras)
  = extras.
Proof.
  induction 1 as [|[key v] extras (Hextra & Hname & Hval) _ IH]; simpl; [done|].
  simpl in *. by rewrite Hname, Hval, Hextra, IH.
Qed.

Lemma Forall2_declared {A B : Type} (P : A -> B -> Prop) (Q : B -> Prop)
  (l : list A) (l' : list B) :
  Forall2 P l l' -> (forall x y, In x l -> P x y -> Q y) -> Forall Q l'.
Proof.
  induction 1 as [|x y l l' Hxy _ IH]; intros HPQ; constructor.
  - apply (HPQ x y); [by left|done].
  - apply IH. intros x' y' Hin. apply HPQ. by right.
Qed.

Lemma Forall2_held {A B : Type} (P Q : A -> B -> Prop)
  (l : list A) (l' : list B) :
  Forall2 P l l' -> (forall x y, In y l' -> P x y -> Q x y) -> Forall2 Q l l'.
Proof.
  induction 1 as [|x y l l' Hxy _ IH]; intros HPQ; constructor.
  - apply HPQ; [by left|done].
  - apply IH. intros x' y' Hin. apply HPQ. by right.
Qed.

(** The construction from the tree of items that are the declared fields of
    the class, each with a value its validator takes back from the tree,
    and then extras that the tree leaves as they are. *)
Lemma construct_of_tree (cls : ModelClass)
  (declared extras : list (string * value)) :
  Forall2 (fun nf nv =>
             fst nv = fst nf
             /\ validate (snd nf) (recurse_tree (snd nv)) = Some (snd nv))
          (cls_fields cls) declared ->
  Forall (fun kv =>
            is_extra cls (fst kv) = true /\ field_name (fst kv) = fst kv
            /\ recurse_tree (snd kv) = snd kv) extras ->
  NoDup (map (fun nv => field_name (fst nv)) (declared ++ extras)) ->
  construct cls (to_asdf_tree (declared ++ extras)) = Ok (declared ++ extras)%list.
Proof.
  intros Hdeclared Hextras Hnd.
  rewrite to_asdf_tree_nodup by done.
  set (rename := fun nv : string * value =>
                   (field_name (fst nv), recurse_tree (snd nv))).
  set (kwargs := map rename (declared ++ extras)).
  assert (Hkeys : NoDup (map fst kwargs)).
  { unfold kwargs. by rewrite map_map. }
  assert (Hfields : mapM (init_field kwargs) (cls_fields cls) = Ok declared).
  { apply mapM_Forall2.
    apply (Forall2_held _ _ _ _ Hdeclared).
    intros [name field] [name' v] Hin [Hn Hv]. simpl in Hn, Hv. subst name'.
    unfold init_field, validated.
    rewrite (dict_get_nodup (field_name name) (recurse_tree v) kwargs Hkeys).
    - by rewrite Hv.
    - unfold kwargs. apply (in_map rename _ (name, v)), in_or_app. by left. }
  assert (Hfilter : List.filter (fun '(key, _) => is_extra cls key) kwargs = extras).
  { unfold kwargs. rewrite map_app, List.filter_app.
    rewrite filter_declared, filter_extras; [done|done|].
    apply (Forall2_declared _ _ _ _ Hdeclared).
    intros [name field] [name' v] Hin [Hn _]. simpl in *. subst name'.
    by exists field. }
  unfold construct. rewrite Hfields. simpl. by rewrite Hfilter.
Qed.

Lemma mapM_Ok_Forall2 {A B : Type} (f : A -> result B) (l : list A) (l' : list B) :
  mapM f l = Ok l' -> Forall2 (fun x y => f x = Ok y) l l'.
Proof.
  revert l'. induction l as [|x l IH]; intros l'; simpl.
  - intros [= <-]. constructor.
  - destruct (f x) as [y|] eqn:Hx; [|done].
    destruct (mapM f l) as [ys|]; [|done].
    intros [= <-]. constructor; [done|]. by apply IH.
Qed.

Lemma mapM_fixed {A : Type} (f : A -> result A) (l : list A) :
  mapM f l = Ok l -> Forall (fun x => f x = Ok x) l.
Proof.
  induction l as [|x l IH]; simpl; [constructor|].
  destruct (f x) as [y|] eqn:Hx; [|done].
  destruct (mapM f l) as [ys|]; [|done].
  intros [= -> ->]. constructor; [done|]. by apply IH.
Qed.

Lemma mapM_map_fixed {A B : Type} (f : B -> result A) (g : A -> B) (l : list A) :
  Forall (fun x => f (g x) = Ok x) l -> mapM f (map g l) = Ok l.
Proof. induction 1 as [|x l Hx _ IH]; simpl; [done|]. by rewrite Hx, IH. Qed.

Lemma init_field_name (kwargs : list (string * value)) (nf : string * FieldInfo)
  (nv : string * value) :
  init_field kwargs nf = Ok nv -> fst nv = fst nf.
Proof.
  destruct nf as [name field]. unfold init_field, validated. simpl.
  destruct (dict_get (field_name name) kwargs) as [v|].
  - destruct (validate field v); [|done]. by intros [= <-].
  - destruct (dict_get name kwargs) as [v|].
    + destruct (validate field v); [|done]. by intros [= <-].
    + destruct (fi_default field); [done|]. by intros [= <-].
Qed.

(** An instance that its own validation returns unchanged holds its
    declared fields, in the order of the class, and then its extras. *)
Lemma construct_fixed (cls : ModelClass) (items : list (string * value)) :
  construct cls items = Ok items ->
  exists declared,
    items = (declared ++ List.filter (fun '(key, _) => is_extra cls key) items)%list
    /\ Forall2 (fun nf nv => init_field items nf = Ok nv) (cls_fields cls) declared.
Proof.
  unfold construct.
  destruct (mapM (init_field items) (cls_fields cls)) as [declared|] eqn:Hm;
    [|done].
  simpl. intros [= Heq]. exists declared.
  apply mapM_Ok_Forall2 in Hm. by split.
Qed.

Lemma Forall2_impl_In {A B : Type} (P Q : A -> B -> Prop)
  (l : list A) (l' : list B) :
  Forall2 P l l' ->
  (forall x y, In x l -> In y l' -> P x y -> Q x y) -> Forall2 Q l l'.
Proof.
  induction 1 as [|x y l l' Hxy _ IH]; intros HPQ; constructor.
  - apply HPQ; [by left|by left|done].
  - apply IH. intros x' y' Hx Hy. apply HPQ; by right.
Qed.

Lemma Forall2_In_r {A B : Type} (P : A -> B -> Prop) (l : list A) (l' : list B)
  (y : B) :
  Forall2 P l l' -> In y l' -> exists x, In x l /\ P x y.
Proof.
  induction 1 as [|x y' l l' Hxy _ IH]; simpl; [done|].
  intros [->|Hin].
  - exists x. by split; [left|].
  - destruct (IH Hin) as (x' & Hx' & HP). exists x'. by split; [right|].
Qed.

Lemma NoDup_map_inj {A B : Type} (g : A -> B) (l : list A) (a b : A) :
  NoDup (map g l) -> In a l -> In b l -> g a = g b -> a = b.
Proof.
  induction l as [|x l IH]; simpl; [done|].
  intros Hnd Ha Hb Heq. apply NoDup_cons in Hnd as [Hx Hnd].
  destruct Ha as [->|Ha], Hb as [->|Hb]; [done| | |by apply IH].
  - exfalso. apply Hx. rewrite Heq. apply list_elem_of_In. by apply in_map.
  - exfalso. apply Hx. rewrite <- Heq. apply list_elem_of_In. by apply in_map.
Qed.

Lemma NoDup_map_fst {A : Type} (g : string -> A) (l : list (string * value)) :
  NoDup (map (fun nv => g (fst nv)) l) -> NoDup (map fst l).
Proof.
  intros Hnd. apply (NoDup_fmap_1 g). rewrite <- list_fmap_compose.
  exact Hnd.
Qed.

Lemma keywords_py_dict (items : list (string * value)) :
  keywords (map (fun kv => (VStr (fst kv), snd kv)) items) = Ok items.
Proof.
  induction items as [|[k v] items IH]; simpl; [done|]. by rewrite IH.
Qed.

End Properties.

(** ** Instances of the properties at the reference collaborators *)


Lemma make_default_scenario_witness :
  @make_default Reference.collaborators Example.Scenario None []
  = Ok (VModel "Scenario" false
          [("name", VStr "dummy value"); ("count", VInt (-999999));
           ("tags", VList [VStr "dummy value"])])
  /\ @make_default Reference.collaborators Example.Scenario
       (Some [(VStr "name", VStr "M1")]) []
     = Ok (VModel "Scenario" false
             [("name", VStr "M1"); ("count", VInt (-999999));
              ("tags", VList [VStr "dummy value"])]).
Proof.
  apply (@make_default_scenario Reference.collaborators []); reflexivity.
Defined.

Lemma make_default_scenario_tags_not_empty :
  @make_default Reference.collaborators Example.Scenario None []
  <> Ok (VModel "Scenario" false
           [("name", VStr "dummy value"); ("count", VInt (-999999));
            ("tags", VList [])]).
Proof. vm_compute. discriminate. Qed.

Section Reference_instances.
Local Existing Instance Reference.collaborators.
Import Example.

(** C1 as stated fails: with a keyword argument named [field_type] the
    default of an [int] field is not -999999: [get_default] is called with
    two values for its first parameter, the resolution of the field
    raises, and so does [make_default]; a keyword named [field] does the
    same to a list field. *)
Lemma make_default_keyword_collision :
  get_default TInt [("field_type", VNone)]
  = Raise (TypeError "got multiple values for argument 'field_type'")
  /\ resolve_field "count" count_field [("field_type", VNone)]
     = Raise (TypeError "got multiple values for argument 'field_type'")
  /\ make_default Scenario None [("field_type", VNone)]
     = Raise (TypeError "got multiple values for argument 'field_type'")
  /\ resolve_field "tags" tags_field [("field", VNone)]
     = Raise (TypeError "got multiple values for argument 'field'")
  /\ make_default Scenario None [("field", VNone)]
     = Raise (TypeError "got multiple values for argument 'field'").
Proof. vm_compute. by repeat split. Qed.

(** C1 at three fields: a static default, the special case [read_pattern]
    and a boolean leaf; and at an [int] leaf with a keyword argument. *)
Lemma make_default_priority_witness :
  resolve_field "name" (MkFieldInfo (Default (VStr "x")) None [] TStr) []
  = Ok (Some (VStr "x"))
  /\ resolve_field "read_pattern"
       (MkFieldInfo PydanticUndefined (Some OriginList) [ArgClass TInt] TInt) []
     = Ok (Some (special_cases "read_pattern"))
  /\ resolve_field "flag" (MkFieldInfo (Default VNone) None [] TBool) []
     = if_not_None (get_default TBool [])
  /\ get_default TInt [("filename", VStr "x")] = Ok (VInt (-999999)).
Proof.
  split; [|split; [|split]]; cycle 3.
  { destruct (proj1 (proj2 (proj2 (proj2 (proj2 (proj2 (proj2 (proj2
                (make_default_priority "count" count_field
                   [("filename", VStr "x")])))))))) eq_refl)
      as [Hint _]. exact Hint. }
  - apply (proj1 (make_default_priority "name"
                    (MkFieldInfo (Default (VStr "x")) None [] TStr) []));
      [reflexivity|discriminate].
  - apply (proj1 (proj2 (proj2
             (make_default_priority "read_pattern"
                (MkFieldInfo PydanticUndefined (Some OriginList) [ArgClass TInt] TInt)
                []))));
      [by left|reflexivity|discriminate].
  - apply (proj1 (proj2 (proj2 (proj2 (proj2 (proj2
             (make_default_priority "flag"
                (MkFieldInfo (Default VNone) None [] TBool) [])))))));
      [by right|reflexivity|reflexivity|discriminate|discriminate].
Defined.

(** C3 as stated fails: [a] and [b] are two instances, an invalid
    assignment to [b] raises, and once [a] has entered [pause_validation]
    the same assignment to [b] is stored without validation. *)
Lemma pause_validation_reaches_other_instance :
  ref_id a <> ref_id b
  /\ validate_assignment (config_of world b) = true
  /\ fst (setattr b "count" (VStr "abc") world) = Raise (ValidationError "count")
  /\ validate_assignment (config_of (pause_enter a world) b) = false
  /\ fst (setattr b "count" (VStr "abc") (pause_enter a world)) = Ok tt
  /\ __getitem__ b "count"
       (snd (setattr b "count" (VStr "abc") (pause_enter a world)))
     = Some (VStr "abc").
Proof. split; [discriminate|]. vm_compute. by repeat split. Qed.

Lemma pause_validation_per_class_witness :
  (validation_paused (pause_enter a world) b
   /\ forall key v,
       setattr b key v (pause_enter a world)
       = (Ok tt, store b key v (pause_enter a world)))
  /\ (config_of (pause_enter a world) c = config_of world c
      /\ forall key v,
          fst (setattr c key v (pause_enter a world)) = fst (setattr c key v world)).
Proof.
  split.
  - apply (proj1 (pause_validation_per_class a b world)). reflexivity.
  - apply (proj2 (pause_validation_per_class a c world)). discriminate.
Defined.


(** C10 at the instance [a]: after an inner scope, inside the outer one,
    the string "abc" for its [count] is rejected. *)
Lemma pause_validation_exit_enables_witness :
  fst (setattr a "count" (VStr "abc")
         (snd (pause_validation a true (fun w => (Ok tt, w))
                 (pause_enter a world))))
  = Raise (ValidationError "count").
Proof.
  apply (proj2 (proj2
           (pause_validation_exit_enables a true (fun w => (Ok tt, w)) world))
           "count" count_field (VStr "abc")); reflexivity.
Defined.

(** C6 as stated fails: inside [pause_validation] the flag
    [_validate_setitem] of [a] is still true, and the item assignment of a
    string to its [count] returns normally and is stored. *)
Lemma setitem_inside_pause_stores :
  _validate_setitem (object_of (pause_enter a world) a) = VBool true
  /\ validate count_field (VStr "abc") = None
  /\ fst (__setitem__ a "count" (VStr "abc") (pause_enter a world)) = Ok tt
  /\ __getitem__ a "count"
       (snd (pause_validation a false (__setitem__ a "count" (VStr "abc")) world))
     = Some (VStr "abc")
  /\ fst (pause_validation a false (__setitem__ a "count" (VStr "abc")) world)
     = Ok tt.
Proof. vm_compute. by repeat split. Qed.

Lemma setitem_validates_witness :
  __setitem__ a "count" (VStr "abc") world
  = (Raise (ValidationError "count"), world).
Proof.
  apply (setitem_validates a "count" (VStr "abc") count_field world);
    reflexivity.
Defined.

Lemma setitem_without_validation_witness :
  fst (__setitem__ a "count" (VStr "abc") unvalidated) = Ok tt
  /\ events (snd (__setitem__ a "count" (VStr "abc") unvalidated))
     = (events unvalidated ++ [Warn "RuntimeWarning" setitem_warning])%list
  /\ __getitem__ a "count" (snd (__setitem__ a "count" (VStr "abc") unvalidated))
     = Some (VStr "abc").
Proof.
  assert (Hflag : py_bool (_validate_setitem (object_of unvalidated a)) = Ok false)
    by reflexivity.
  apply (proj2 (setitem_without_validation a "count" (VStr "abc")
                  unvalidated Hflag)).
Defined.

Lemma to_asdf_tree_transforms_witness :
  to_asdf_tree observation_items
  = [("pass", VInt 3);
     ("exposure", VDict [(VStr "type", VStr "WFI_IMAGE");
                         (VStr "ngroups", VInt 6)]);
     ("comment", VStr "extra")].
Proof.
  rewrite (proj2 (proj2 (proj2 (proj2 (proj2 (proj2 (proj2
             to_asdf_tree_transforms)))))) observation_items).
  - reflexivity.
  - apply (bool_decide_unpack _). vm_compute. exact I.
Defined.

(** C9 as stated fails: the [read_pattern] of [special_cases] is a list of
    6 elements, and [flat_items] yields 11 entries for it, none of them
    under a path that ends in the index of one of the 6. *)
Lemma flat_items_nested_list :
  special_cases "read_pattern"
  = VList [VList [VInt 1]; VList [VInt 2; VInt 3]; VList [VInt 4];
           VList [VInt 5; VInt 6; VInt 7; VInt 8]; VList [VInt 9; VInt 10];
           VList [VInt 11]]
  /\ flat_items with_read_pattern true
     = [("read_pattern.0.0", VInt 1); ("read_pattern.1.0", VInt 2);
        ("read_pattern.1.1", VInt 3); ("read_pattern.2.0", VInt 4);
        ("read_pattern.3.0", VInt 5); ("read_pattern.3.1", VInt 6);
        ("read_pattern.3.2", VInt 7); ("read_pattern.3.3", VInt 8);
        ("read_pattern.4.0", VInt 9); ("read_pattern.4.1", VInt 10);
        ("read_pattern.5.0", VInt 11)]
  /\ length (flat_items with_read_pattern true) <> 6%nat.
Proof. vm_compute. repeat split. discriminate. Qed.

Lemma flat_items_list_field_witness :
  recurse true (VList [VInt 4; VEnum "Filter" "F158" (VStr "F158"); VNone])
    [VStr "tags"]
  = [("tags.0", VInt 4); ("tags.1", VStr "F158"); ("tags.2", VNone)]
  /\ length (recurse true
               (VList [VInt 4; VEnum "Filter" "F158" (VStr "F158"); VNone])
               [VStr "tags"]) = 3%nat.
Proof.
  apply (proj1 (flat_items_list_field "tags"
                  [VInt 4; VEnum "Filter" "F158" (VStr "F158"); VNone])).
  repeat constructor.
Defined.

End Reference_instances.

(** * Further properties *)

(** Induction on a value, with the property at hand for the values inside
    a list, a dict or a model. *)
Lemma value_nested_ind (P : value -> Prop) :
  P VNone ->
  (forall b, P (VBool b)) ->
  (forall z, P (VInt z)) ->
  (forall s, P (VStr s)) ->
  (forall cls member val, P val -> P (VEnum cls member val)) ->
  (forall items, Forall P items -> P (VList items)) ->
  (forall items, Forall (fun kv => P (snd kv)) items -> P (VDict items)) ->
  (forall cls tagged fields,
      Forall (fun nv => P (snd nv)) fields -> P (VModel cls tagged fields)) ->
  (forall r, P (VObject r)) ->
  forall v, P v.
Proof.
  intros HNone HBool HInt HStr HEnum HList HDict HModel HObject.
  fix IH 1. intros [| b | z | s | cls member val | items | items
                    | cls tagged fields | r].
  - exact HNone.
  - apply HBool.
  - apply HInt.
  - apply HStr.
  - apply HEnum, IH.
  - apply HList. induction items as [|x items IHitems]; constructor.
    + apply IH.
    + exact IHitems.
  - apply HDict. induction items as [|[k x] items IHitems]; constructor.
    + apply IH.
    + exact IHitems.
  - apply HModel. induction fields as [|[n x] fields IHfields]; constructor.
    + apply IH.
    + exact IHfields.
  - apply HObject.
Qed.

Lemma dict_set_nodup {V : Type} (k : string) (v : V) (d : list (string * V)) :
  NoDup (map fst d) -> NoDup (map fst (dict_set k v d)).
Proof.
  induction d as [|[k' v'] d IH]; simpl; intros Hnd.
  - apply NoDup_singleton.
  - apply NoDup_cons in Hnd as [Hk Hnd].
    destruct (String.eqb_spec k k') as [->|Hne]; simpl.
    + by apply NoDup_cons.
    + apply NoDup_cons. split; [|by apply IH].
      intros Hin. apply list_elem_of_In, dict_set_keys in Hin as [Heq|Hin].
      * congruence.
      * apply Hk. by apply list_elem_of_In.
Qed.

Lemma fold_dict_set_nodup {V : Type} (items acc : list (string * V)) :
  NoDup (map fst acc) ->
  NoDup (map fst (fold_left (fun d kv => dict_set (fst kv) (snd kv) d) items acc)).
Proof.
  revert acc. induction items as [|[k v] items IH]; intros acc Hnd; simpl.
  - exact Hnd.
  - apply IH. by apply dict_set_nodup.
Qed.

Lemma dict_get_none {V : Type} (k : string) (d : list (string * V)) :
  dict_get k d = None <-> ~ In k (map fst d).
Proof.
  induction d as [|[k' v'] d IH]; simpl; [tauto|].
  destruct (String.eqb_spec k k') as [->|Hne].
  - split; [done|]. intros Hn. exfalso. apply Hn. by left.
  - rewrite IH. split.
    + intros Hn [Heq|Hin]; [congruence|tauto].
    + tauto.
Qed.

Lemma fold_dict_set_get {V : Type} (items acc : list (string * V)) (k : string) :
  dict_get k (fold_left (fun d kv => dict_set (fst kv) (snd kv) d) items acc)
  = match last_value k items with
    | Some v => Some v
    | None => dict_get k acc
    end.
Proof.
  revert acc. induction items as [|[k' v] items IH]; intros acc; simpl; [done|].
  rewrite IH. destruct (last_value k items) as [v'|]; [done|].
  destruct (String.eqb_spec k k') as [->|Hne].
  - apply dict_get_set_eq.
  - by apply dict_get_set_ne.
Qed.

Section Further_properties.
Context `{Collaborators}.
Local Open Scope result_scope.

(** ** to_asdf_tree *)

(** X1.  The dict [to_asdf_tree] returns has pairwise distinct keys, each
    the external name of an item of the instance, whatever the names of
    the instance are; and under a key it has the serialized value of the
    last item with that external name: where two items share an external
    name, the later one overwrites the earlier one. *)
Theorem to_asdf_tree_keys (self : list (string * value)) :
  NoDup (map fst (to_asdf_tree self))
  /\ (forall key, In key (map fst (to_asdf_tree self))
                  <-> exists name, In name (map fst self) /\ key = field_name name)
  /\ (forall key,
         dict_get key (to_asdf_tree self)
         = last_value key
             (map (fun '(name, v) => (field_name name, recurse_tree v)) self)).
Proof.
  rewrite to_asdf_tree_items. split; [|split].
  - apply fold_dict_set_nodup. constructor.
  - intros key. rewrite dict_of_items_keys, map_map. rewrite in_map_iff. split.
    + intros ([name v] & <- & Hin). exists name. split; [|done].
      change name with (fst (name, v)). by apply in_map.
    + intros (name & Hin & ->). apply in_map_iff in Hin as ([n v] & <- & Hin).
      by exists (n, v).
  - intros key. unfold dict_of_items. rewrite fold_dict_set_get.
    by destruct (last_value _ _).
Qed.

Lemma dict_set_values {V : Type} (P : V -> Prop) (k : string) (v : V)
  (d : list (string * V)) :
  P v -> Forall (fun kv => P (snd kv)) d ->
  Forall (fun kv => P (snd kv)) (dict_set k v d).
Proof.
  intros Hv. induction 1 as [|[k' v'] d Hx Hd IH]; simpl.
  - by repeat constructor.
  - destruct (String.eqb k k'); by constructor.
Qed.

Lemma fold_dict_set_values {V : Type} (P : V -> Prop)
  (items acc : list (string * V)) :
  Forall (fun kv => P (snd kv)) acc ->
  Forall (fun kv => P (snd kv)) items ->
  Forall (fun kv => P (snd kv))
         (fold_left (fun d kv => dict_set (fst kv) (snd kv) d) items acc).
Proof.
  revert acc. induction items as [|[k v] items IH]; intros acc Hacc Hall; simpl.
  - exact Hacc.
  - apply Forall_cons in Hall as [Hv Hall].
    apply IH; [|exact Hall]. by apply dict_set_values.
Qed.

Lemma dict_of_items_values {V : Type} (P : V -> Prop) (items : list (string * V)) :
  Forall (fun kv => P (snd kv)) items ->
  Forall (fun kv => P (snd kv)) (dict_of_items items).
Proof. intros Hall. by apply fold_dict_set_values. Qed.

Lemma serialized_fixed (v : value) : serialized v = true -> recurse_tree v = v.
Proof.
  induction v as [| | | | cls member val _ | items IH | items IH
                  | cls tagged fields _ | ] using value_nested_ind;
    simpl; try done.
  - intros Hs. f_equal. induction IH as [|x items Hx _ IHitems]; [done|].
    simpl in Hs. apply andb_true_iff in Hs as [Hsx Hs]. simpl.
    by rewrite Hx, IHitems.
  - intros Hs. f_equal. induction IH as [|[k x] items Hx _ IHitems]; [done|].
    simpl in Hs, Hx. apply andb_true_iff in Hs as [Hsx Hs]. simpl.
    by rewrite Hx, IHitems.
  - by intros ->.
Qed.

Lemma recurse_tree_serialized (v : value) :
  plain_enums v = true -> serialized (recurse_tree v) = true.
Proof.
  induction v as [| | | | cls member val _ | items IH | items IH
                  | cls tagged fields IH | ] using value_nested_ind;
    simpl; try done.
  - intros Hp. induction IH as [|x items Hx _ IHitems]; [done|].
    simpl in Hp. apply andb_true_iff in Hp as [Hpx Hp]. simpl.
    by rewrite Hx, IHitems.
  - intros Hp. induction IH as [|[k x] items Hx _ IHitems]; [done|].
    simpl in Hp, Hx. apply andb_true_iff in Hp as [Hpx Hp]. simpl.
    by rewrite Hx, IHitems.
  - destruct tagged; simpl; [done|]. intros Hp.
    apply forallb_forall. intros [k x] Hin.
    apply in_map_iff in Hin as ([n y] & [= <- <-] & Hin). simpl.
    assert (Hall : Forall (fun kv : string * value => serialized (snd kv) = true)
                     (dict_of_items
                        (map (fun '(name, v) => (field_name name, recurse_tree v))
                           fields))).
    { apply (dict_of_items_values (fun x => serialized x = true)).
      apply Forall_forall. intros [n' y'] Hin'.
      apply list_elem_of_In, in_map_iff in Hin' as ([n0 y0] & [= <- <-] & Hin0).
      simpl. rewrite Forall_forall in IH.
      apply (IH (n0, y0)); [by apply list_elem_of_In|].
      rewrite forallb_forall in Hp. apply (Hp (n0, y0) Hin0). }
    rewrite Forall_forall in Hall.
    apply (Hall (n, y)). by apply list_elem_of_In.
Qed.

(** X2.  [to_asdf_tree] leaves a serialized tree as it is, and what it
    returns is serialized when the enum members of the instance have
    serialized values (an enum member is replaced by its value, which is
    not serialized in turn); serializing is then idempotent. *)
Theorem to_asdf_tree_idempotent (v : value) :
  (serialized v = true -> recurse_tree v = v)
  /\ (plain_enums v = true ->
      serialized (recurse_tree v) = true
      /\ recurse_tree (recurse_tree v) = recurse_tree v)
  /\ (forall self,
         forallb (fun '(_, x) => plain_enums x) self = true ->
         Forall (fun kv => serialized (snd kv) = true) (to_asdf_tree self)).
Proof.
  split; [apply serialized_fixed|]. split.
  - intros Hp. split; [by apply recurse_tree_serialized|].
    by apply serialized_fixed, recurse_tree_serialized.
  - intros self Hp. rewrite to_asdf_tree_items.
    apply (dict_of_items_values (fun x => serialized x = true)).
    apply Forall_forall. intros [k x] Hin.
    apply list_elem_of_In, in_map_iff in Hin as ([n y] & [= <- <-] & Hin).
    simpl. apply recurse_tree_serialized.
    rewrite forallb_forall in Hp. apply (Hp (n, y) Hin).
Qed.

(** ** flat_items *)

Lemma recurse_whole (flatten_lists : bool) (v : value) (path : list value) :
  yielded_whole flatten_lists v = true ->
  recurse flatten_lists v path = [(join_path path, v)].
Proof. destruct v; try done. simpl. by destruct flatten_lists. Qed.

Lemma reaches_whole (flatten_lists : bool) (v : value) (way : list value)
  (x : value) :
  reaches flatten_lists v way x -> yielded_whole flatten_lists x = true.
Proof. induction 1; done. Qed.

Lemma in_concat_imap {A B : Type} (f : nat -> A -> list B) (l : list A) (y : B) :
  In y (concat (imap f l))
  <-> exists i x, l !! i = Some x /\ In y (f i x).
Proof.
  revert f. induction l as [|a l IH]; intros f; simpl.
  - split; [done|]. by intros (i & x & Hi & _).
  - rewrite in_app_iff, IH. split.
    + intros [Hy|(i & x & Hi & Hy)].
      * by exists 0%nat, a.
      * by exists (S i), x.
    + intros ([|i] & x & Hi & Hy).
      * left. simpl in Hi. by injection Hi as ->.
      * right. by exists i, x.
Qed.

(** What [recurse] yields from [v] under [path]: the values reached from
    [v], each under the path extended by the way to it. *)
Lemma recurse_reaches (flatten_lists : bool) (v : value) :
  forall path p x,
    In (p, x) (recurse flatten_lists v path)
    <-> exists way, reaches flatten_lists v way x
                    /\ p = join_path (path ++ way).
Proof.
  assert (Hleaf : forall v path p x,
             yielded_whole flatten_lists v = true ->
             (forall way y, reaches flatten_lists v way y -> way = [] /\ y = v) ->
             In (p, x) (recurse flatten_lists v path)
             <-> exists way, reaches flatten_lists v way x
                             /\ p = join_path (path ++ way)).
  { intros v0 path p x Hw Hinv. rewrite recurse_whole by done. simpl. split.
    - intros [[= <- <-]|[]]. exists []. split; [by constructor|].
      by rewrite app_nil_r.
    - intros (way & Hr & ->). destruct (Hinv _ _ Hr) as [-> ->].
      left. by rewrite app_nil_r. }
  induction v as [| | | | cls member val IH | items IH | items IH
                  | cls tagged fields IH | ] using value_nested_ind;
    intros path p x.
  - apply Hleaf; [done|]. by inversion 1.
  - apply Hleaf; [done|]. by inversion 1.
  - apply Hleaf; [done|]. by inversion 1.
  - apply Hleaf; [done|]. by inversion 1.
  - simpl. rewrite IH. split.
    + intros (way & Hr & ->). exists way. split; [by constructor|done].
    + intros (way & Hr & ->). exists way. split; [|done].
      inversion Hr; subst; [discriminate|done].
  - destruct flatten_lists eqn:Hfl.
    + rewrite recurse_list, in_concat_imap. split.
      * intros (i & v & Hi & Hin).
        rewrite Forall_forall in IH.
        apply (IH v (list_elem_of_lookup_2 _ _ _ Hi)) in Hin
          as (way & Hr & ->).
        exists (VInt (Z.of_nat i) :: way). split.
        -- by apply (reaches_list true items i v).
        -- by rewrite <- app_assoc.
      * intros (way & Hr & ->).
        inversion Hr as [? Hw| | | |? index v way' ? _ Hi Hv]; subst;
          [discriminate Hw|].
        exists index, v. split; [done|].
        rewrite Forall_forall in IH.
        apply (IH v (list_elem_of_lookup_2 _ _ _ Hi)).
        exists way'. split; [done|]. by rewrite <- app_assoc.
    + apply Hleaf; [done|]. inversion 1; [done|discriminate].
  - simpl. rewrite in_concat. split.
    + intros (entries & Hentries & Hin).
      apply in_map_iff in Hentries as ([key v] & <- & Hkv).
      rewrite Forall_forall in IH.
      apply (IH (key, v) (proj2 (list_elem_of_In _ _) Hkv)) in Hin
        as (way & Hr & ->).
      exists (key :: way). split.
      * by apply (reaches_dict _ items key v).
      * by rewrite <- app_assoc.
    + intros (way & Hr & ->).
      inversion Hr as [? Hw| | |? key v way' ? Hkv Hv|]; subst;
        [discriminate Hw|].
      exists (recurse flatten_lists v (path ++ [key])). split.
      * apply in_map_iff. by exists (key, v).
      * rewrite Forall_forall in IH.
        apply (IH (key, v) (proj2 (list_elem_of_In _ _) Hkv)).
        exists way'. split; [done|]. by rewrite <- app_assoc.
  - simpl. rewrite in_concat. split.
    + intros (entries & Hentries & Hin).
      apply in_map_iff in Hentries as ([name v] & <- & Hnv).
      rewrite Forall_forall in IH.
      apply (IH (name, v) (proj2 (list_elem_of_In _ _) Hnv)) in Hin
        as (way & Hr & ->).
      exists (VStr name :: way). split.
      * by apply (reaches_model _ cls tagged fields name v).
      * by rewrite <- app_assoc.
    + intros (way & Hr & ->).
      inversion Hr as [? Hw| |? ? ? name v way' ? Hnv Hv| |]; subst;
        [discriminate Hw|].
      exists (recurse flatten_lists v (path ++ [VStr name])). split.
      * apply in_map_iff. by exists (name, v).
      * rewrite Forall_forall in IH.
        apply (IH (name, v) (proj2 (list_elem_of_In _ _) Hnv)).
        exists way'. split; [done|]. by rewrite <- app_assoc.
  - apply Hleaf; [done|]. by inversion 1.
Qed.

(** X3.  [flat_items] yields exactly the leaves reached from the instance,
    each under the joined names, keys and indexes of the way down to it: a
    pair is yielded if and only if its value is reached by a way down (the
    name of a field for each model gone through, the key for each dict, the
    index for each list when [flatten_lists] is set, nothing for an enum
    member) and its path is the join of that way.  So the value of an entry
    is no model, no dict and no enum member, and with [flatten_lists] no
    list, and the path of an entry of an instance starts with the name of
    one of its items. *)
Theorem flat_items_entries (flatten_lists : bool) :
  (forall v path p x,
      In (p, x) (recurse flatten_lists v path)
      <-> exists way, reaches flatten_lists v way x
                      /\ p = join_path (path ++ way))
  /\ (forall self p x,
         In (p, x) (flat_items self flatten_lists)
         <-> exists way, reaches flatten_lists self way x /\ p = join_path way)
  /\ (forall self,
         Forall (fun pv => yielded_whole flatten_lists (snd pv) = true)
                (flat_items self flatten_lists))
  /\ (forall cls tagged fields,
         Forall (fun pv => exists name way,
                     In name (map fst fields)
                     /\ fst pv = join_path (VStr name :: way))
                (flat_items (VModel cls tagged fields) flatten_lists)).
Proof.
  split; [intros v; apply recurse_reaches|].
  split; [intros self p x; apply (recurse_reaches flatten_lists self [])|].
  split.
  - intros self. apply Forall_forall. intros [p x] Hin.
    apply list_elem_of_In, (recurse_reaches flatten_lists self []) in Hin
      as (way & Hr & _).
    by eapply reaches_whole.
  - intros cls tagged fields. apply Forall_forall. intros [p x] Hin.
    apply list_elem_of_In, (recurse_reaches flatten_lists _ []) in Hin
      as (way & Hr & ->).
    inversion Hr as [? Hw| |? ? ? name v way' ? Hnv Hv| |]; subst;
      [discriminate Hw|].
    exists name, way'. split; [|done].
    change name with (fst (name, v)). by apply in_map.
Qed.

(** ** to_flat_dict *)

Section FlatDict_properties.
Context `{TypeTests}.

(** X4.  The keys of [to_flat_dict] are pairwise distinct and each is
    "roman." followed by the path of an entry of [flat_items]; with
    [include_arrays] every entry of [flat_items] has its key in the dict,
    and without it no value of the dict is an array (strings not being
    arrays). *)
Theorem to_flat_dict_entries (self : value) (include_arrays : bool) :
  NoDup (map fst (to_flat_dict self include_arrays))
  /\ (forall key,
         In key (map fst (to_flat_dict self include_arrays)) ->
         exists path, key = "roman." ++ path
                      /\ In path (map fst (flat_items self true)))
  /\ (forall path,
         In path (map fst (flat_items self true)) ->
         In ("roman." ++ path) (map fst (to_flat_dict self true)))
  /\ ((forall s, is_ndarray (VStr s) = false) ->
      Forall (fun kv => is_ndarray (snd kv) = false) (to_flat_dict self false)).
Proof.
  unfold to_flat_dict. split; [|split; [|split]].
  - apply fold_dict_set_nodup. constructor.
  - intros key Hin. apply (proj1 (dict_of_items_keys _ _)) in Hin.
    rewrite map_map in Hin. apply in_map_iff in Hin as ([p v] & <- & Hin).
    apply filter_In in Hin as [Hin _]. exists p. split; [done|].
    change p with (fst (p, v)). by apply in_map.
  - intros path Hin. apply dict_of_items_keys. rewrite map_map.
    apply in_map_iff in Hin as ([p v] & <- & Hin).
    apply in_map_iff. exists (p, v). split; [done|].
    apply filter_In. by split.
  - intros Hstr.
    apply (dict_of_items_values (fun x => is_ndarray x = false)).
    apply Forall_forall. intros [k x] Hin.
    apply list_elem_of_In, in_map_iff in Hin as ([p v] & [= <- <-] & Hin).
    apply filter_In in Hin as [_ Hv]. simpl in Hv.
    apply negb_true_iff in Hv. simpl. unfold convert_value.
    destruct (is_datetime v); [apply Hstr|].
    destruct (is_Time v); [apply Hstr|exact Hv].
Qed.

End FlatDict_properties.

(** ** Item access *)

Lemma store_items_private (self : Ref) (key : string) (v : value) (w : World) :
  is_private (ref_cls self) key = true ->
  obj_items (object_of (store self key v w) self) = obj_items (object_of w self).
Proof. intros Hp. unfold store. rewrite Hp. by rewrite object_of_set_object. Qed.

Lemma store_private_item (self : Ref) (key : string) (v : value) (w : World) :
  is_private (ref_cls self) key = false ->
  obj_private (object_of (store self key v w) self)
  = obj_private (object_of w self).
Proof. intros Hp. unfold store. rewrite Hp. by rewrite object_of_set_object. Qed.

Lemma store_flag_other (self : Ref) (key : string) (v : value) (w : World) :
  key <> "_validate_setitem" ->
  _validate_setitem (object_of (store self key v w) self)
  = _validate_setitem (object_of w self).
Proof.
  intros Hne. unfold store, _validate_setitem.
  destruct (is_private _ _); rewrite object_of_set_object; simpl; [|done].
  by rewrite dict_get_set_ne.
Qed.

Lemma store_flag_private (self : Ref) (v : value) (w : World) :
  is_private (ref_cls self) "_validate_setitem" = true ->
  _validate_setitem (object_of (store self "_validate_setitem" v w) self) = v.
Proof.
  intros Hp. unfold store, _validate_setitem. rewrite Hp.
  rewrite object_of_set_object. simpl. by rewrite dict_get_set_eq.
Qed.

Lemma getitem_store_other (self : Ref) (key other : string) (v : value)
  (w : World) :
  other <> key ->
  __getitem__ self other (store self key v w) = __getitem__ self other w.
Proof.
  intros Hne. unfold __getitem__, store, _validate_setitem.
  destruct (is_private (ref_cls self) key); rewrite object_of_set_object; simpl.
  - destruct (is_private (ref_cls self) other); [|done].
    destruct (String.eqb other "_validate_setitem") eqn:Ho.
    + apply String.eqb_eq in Ho. subst other.
      by rewrite dict_get_set_ne by congruence.
    + apply dict_get_set_ne. congruence.
  - destruct (is_private (ref_cls self) other); [done|].
    apply dict_get_set_ne. congruence.
Qed.

Lemma setattr_cases (self : Ref) (key : string) (v : value) (w : World) :
  setattr self key v w = (Raise (ValidationError key), w)
  \/ exists x,
      setattr self key v w = (Ok tt, store self key x w)
      /\ (x = v
          \/ exists field,
              dict_get key (cls_fields (ref_cls self)) = Some field
              /\ validate field v = Some x).
Proof.
  unfold setattr. destruct (validate_assignment _); [|right; eauto].
  destruct (dict_get key _) as [field|] eqn:Hfield; [|right; eauto].
  destruct (validate field v) as [x|] eqn:Hx; [|by left].
  right. exists x. split; [done|]. right. eauto.
Qed.

(** The three ways an item assignment ends: the test of
    [_validate_setitem] raises, the validation of the value raises, or a
    value is stored. *)
Lemma setitem_cases (self : Ref) (key : string) (v : value) (w : World) :
  (exists e, py_bool (_validate_setitem (object_of w self)) = Raise e
             /\ __setitem__ self key v w = (Raise e, w))
  \/ (fst (__setitem__ self key v w) = Raise (ValidationError key)
      /\ snd (__setitem__ self key v w) = w)
  \/ exists x,
      fst (__setitem__ self key v w) = Ok tt
      /\ objects (snd (__setitem__ self key v w)) = objects (store self key x w)
      /\ (x = v
          \/ exists field,
              dict_get key (cls_fields (ref_cls self)) = Some field
              /\ validate field v = Some x).
Proof.
  unfold __setitem__, nullcontext.
  destruct (py_bool (_validate_setitem (object_of w self))) as [[|]|e].
  - right. destruct (setattr_cases self key v w) as [->|(x & -> & Hx)]; [by left|].
    right. by exists x.
  - right. right. exists v. set (w0 := emit _ w).
    rewrite pause_validation_outcome, pause_validation_world, setattr_entered.
    cbn [fst snd]. split; [reflexivity|]. split; [|by left].
    rewrite pause_exit_objects. unfold store.
    by destruct (is_private _ _).
  - left. by exists e.
Qed.

Lemma existsb_eqb_In (k : string) (l : list string) :
  existsb (String.eqb k) l = true <-> In k l.
Proof.
  rewrite existsb_exists. split.
  - intros (x & Hin & Heq). apply String.eqb_eq in Heq. by subst.
  - intros Hin. exists k. split; [done|apply String.eqb_refl].
Qed.

Lemma contains_spec (self : Ref) (item : string) (w : World) :
  __contains__ self item w = true
  <-> In item (map fst (cls_fields (ref_cls self)))
      \/ In item (map fst (obj_items (object_of w self))).
Proof.
  unfold __contains__, model_extra. rewrite orb_true_iff, !existsb_eqb_In.
  split.
  - intros [Hf|He]; [by left|]. right.
    apply in_map_iff in He as ([k x] & <- & Hin).
    apply filter_In in Hin as [Hin _].
    change k with (fst (k, x)). by apply in_map.
  - intros [Hf|Hi]; [by left|].
    destruct (existsb (String.eqb item) (map fst (cls_fields (ref_cls self))))
      eqn:Hd.
    + left. by apply existsb_eqb_In.
    + right. apply in_map_iff in Hi as ([k x] & <- & Hin).
      apply in_map_iff. exists (k, x). split; [done|].
      apply filter_In. split; [done|]. simpl in *. by rewrite Hd.
Qed.

Lemma contains_items (self : Ref) (item : string) (w1 w2 : World) :
  obj_items (object_of w1 self) = obj_items (object_of w2 self) ->
  __contains__ self item w1 = __contains__ self item w2.
Proof. intros Heq. unfold __contains__, model_extra. by rewrite Heq. Qed.

(** X5.  [item in self] holds exactly for the names of the declared fields
    and of the items the instance holds (an alias is not looked up, and an
    attribute of the object is no item); after an item assignment that
    returned, reading the key gives the assigned value, or the value its
    validator made of it.  The key is then in the instance, unless it is a
    private name (it begins with an underscore and names no field, as
    [_validate_setitem] does): the assignment then sets an attribute of the
    object, and what is in the instance is as before. *)
Theorem setitem_then_getitem (self : Ref) (key : string) (v : value) (w : World) :
  (forall item,
      __contains__ self item w = true
      <-> In item (map fst (cls_fields (ref_cls self)))
          \/ In item (map fst (obj_items (object_of w self))))
  /\ (fst (__setitem__ self key v w) = Ok tt ->
      (exists x,
          __getitem__ self key (snd (__setitem__ self key v w)) = Some x
          /\ (x = v
              \/ exists field,
                  dict_get key (cls_fields (ref_cls self)) = Some field
                  /\ validate field v = Some x))
      /\ (is_private (ref_cls self) key = false ->
          __contains__ self key (snd (__setitem__ self key v w)) = true)
      /\ (is_private (ref_cls self) key = true ->
          forall item,
            __contains__ self item (snd (__setitem__ self key v w))
            = __contains__ self item w)).
Proof.
  split; [intros item; apply contains_spec|].
  intros Hok.
  destruct (setitem_cases self key v w)
    as [(e & _ & Hr)|[[Hr _]|(x & _ & Hobj & Hx)]];
    [rewrite Hr in Hok; discriminate Hok|congruence|].
  assert (Hget : __getitem__ self key (snd (__setitem__ self key v w)) = Some x).
  { rewrite (getitem_objects _ _ self key Hobj). apply getitem_store. }
  split; [by exists x|]. split.
  - intros Hp. apply contains_spec. right.
    rewrite (object_of_objects _ _ self Hobj), object_of_store by done.
    apply dict_set_keys. by left.
  - intros Hp item. apply contains_items.
    rewrite (object_of_objects _ _ self Hobj). by apply store_items_private.
Qed.


Lemma setitem_events (self : Ref) (key : string) (v : value) (w : World) :
  events (snd (__setitem__ self key v w))
  = (events w
     ++ match py_bool (_validate_setitem (object_of w self)) with
        | Ok false => [Warn "RuntimeWarning" setitem_warning]
        | _ => []
        end)%list.
Proof.
  unfold __setitem__, nullcontext.
  destruct (py_bool (_validate_setitem (object_of w self))) as [[|]|e].
  - destruct (setattr_cases self key v w) as [->|(x & -> & _)]; cbn [snd];
      rewrite ?store_events; symmetry; apply app_nil_r.
  - rewrite pause_validation_world, setattr_entered. cbn [snd].
    rewrite pause_exit_events, store_events. cbn [app]. by rewrite app_nil_r.
  - symmetry. apply app_nil_r.
Qed.

Lemma setitem_outcome_same (self : Ref) (key : string) (v : value)
  (w1 w2 : World) :
  object_of w1 self = object_of w2 self -> configs w1 = configs w2 ->
  fst (__setitem__ self key v w1) = fst (__setitem__ self key v w2).
Proof.
  intros Hobj Hcfg. unfold __setitem__, nullcontext. rewrite Hobj.
  destruct (py_bool (_validate_setitem (object_of w2 self))) as [[|]|e].
  - unfold setattr, config_of. rewrite Hcfg.
    destruct (validate_assignment _); [|done].
    destruct (dict_get key _) as [field|]; [|done].
    by destruct (validate field v).
  - by rewrite !pause_validation_outcome, !setattr_entered.
  - done.
Qed.

(** X7.  [_validate_setitem] is private to the instance, unlike the flags
    of [pause_validation]: after [set_validate_setitem] on one instance an
    item assignment to any other instance, of the same class or not, ends
    as before and adds the same events; the items of the instance and the
    class configurations are as before; and with the flag set to [True] an
    item assignment is the plain attribute assignment. *)
Theorem set_validate_setitem_private (self : Ref) (value : bool) (w : World) :
  let w' := snd (set_validate_setitem self value w) in
  (forall b key v,
      ref_id b <> ref_id self ->
      fst (__setitem__ b key v w') = fst (__setitem__ b key v w)
      /\ events (snd (__setitem__ b key v w'))
         = events (snd (__setitem__ b key v w)))
  /\ _validate_setitem (object_of w' self) = VBool value
  /\ obj_items (object_of w' self) = obj_items (object_of w self)
  /\ configs w' = configs w
  /\ (forall key v,
         __setitem__ self key v (snd (set_validate_setitem self true w))
         = setattr self key v (snd (set_validate_setitem self true w))).
Proof.
  intros w'.
  assert (Hother : forall b, ref_id b <> ref_id self ->
                             object_of w' b = object_of w b).
  { intros b Hne. unfold w', object_of, set_validate_setitem, set_object. simpl.
    by rewrite lookup_insert_ne. }
  assert (Hflag : forall b,
            _validate_setitem
              (object_of (snd (set_validate_setitem self b w)) self) = VBool b).
  { intros b. unfold set_validate_setitem. cbn [snd].
    rewrite object_of_set_object. unfold _validate_setitem. simpl.
    by rewrite dict_get_set_eq. }
  split; [|repeat split].
  - intros b key v Hne. split.
    + apply setitem_outcome_same; [by apply Hother|done].
    + rewrite !setitem_events. by rewrite (Hother b Hne).
  - apply Hflag.
  - unfold w', set_validate_setitem. cbn [snd]. by rewrite object_of_set_object.
  - intros key v. unfold __setitem__, nullcontext. by rewrite Hflag.
Qed.

(** X8.  An item assignment never revalidates the instance: all it adds to
    the events is its warning when [_validate_setitem] is off.  With the
    flag on it leaves the class configurations alone; with the flag off it
    leaves both validation flags of the class enabled, also when it runs
    inside a [pause_validation] block; and when the test of the flag raises
    it changes nothing. *)
Theorem setitem_effects (self : Ref) (key : string) (v : value) (w : World) :
  let w' := snd (__setitem__ self key v w) in
  events w'
  = (events w
     ++ match py_bool (_validate_setitem (object_of w self)) with
        | Ok false => [Warn "RuntimeWarning" setitem_warning]
        | _ => []
        end)%list
  /\ (py_bool (_validate_setitem (object_of w self)) = Ok true ->
      configs w' = configs w)
  /\ (py_bool (_validate_setitem (object_of w self)) = Ok false ->
      validation_enabled w' self)
  /\ (forall e, py_bool (_validate_setitem (object_of w self)) = Raise e ->
                __setitem__ self key v w = (Raise e, w)).
Proof.
  intros w'. split; [apply setitem_events|].
  unfold w', __setitem__, nullcontext.
  destruct (py_bool (_validate_setitem (object_of w self))) as [[|]|e].
  - split; [|split]; [|done|done]. intros _.
    destruct (setattr_cases self key v w) as [->|(x & -> & _)]; [done|].
    apply store_configs.
  - rewrite pause_validation_world, setattr_entered. cbn [snd].
    split; [done|]. split; [|done]. intros _. apply pause_exit_enabled.
  - split; [done|]. split; [done|]. by intros e' [= ->].
Qed.


(** ** pause_validation *)

(** X9.  [pause_validation] itself changes no instance: the instances are
    left as the block left them, the revalidation on exit writing nothing
    back.  With [revalidate_on_exit] the statement raises the validation
    error of the instance as it is on exit, also in place of an exception
    of the block, and otherwise ends as the block ended; so a block that
    does nothing raises exactly when the instance is invalid already. *)
Theorem pause_validation_outcomes (self : Ref) (revalidate_on_exit : bool)
  (block : M unit) (w : World) :
  let after := snd (block (pause_enter self w)) in
  objects (snd (pause_validation self revalidate_on_exit block w)) = objects after
  /\ fst (pause_validation self revalidate_on_exit block w)
     = (if revalidate_on_exit then
          match construct (ref_cls self) (obj_items (object_of after self)) with
          | Ok _ => fst (block (pause_enter self w))
          | Raise e => Raise e
          end
        else fst (block (pause_enter self w)))
  /\ fst (pause_validation self true pass w)
     = match construct (ref_cls self) (obj_items (object_of w self)) with
       | Ok _ => Ok tt
       | Raise e => Raise e
       end.
Proof.
  intros after.
  assert (Hexit : forall w1,
             fst (pause_exit self true w1)
             = match construct (ref_cls self) (obj_items (object_of w1 self)) with
               | Ok _ => Ok tt
               | Raise e => Raise e
               end).
  { intros w1. unfold pause_exit, model_validate.
    destruct (restored_enabled self w1) as [_ ->]. simpl.
    replace (object_of _ self) with (object_of w1 self) by done.
    by destruct (construct _ _). }
  split; [|split].
  - rewrite pause_validation_world. apply pause_exit_objects.
  - rewrite pause_validation_outcome. fold after.
    destruct revalidate_on_exit; [|done].
    rewrite Hexit. by destruct (construct _ _).
  - rewrite pause_validation_outcome. unfold pass. cbn [fst snd]. rewrite Hexit.
    replace (object_of (pause_enter self w) self) with (object_of w self) by done.
    by destruct (construct _ _).
Qed.

(** ** make_default *)

Lemma build_defaults_keys (fields : list (string * FieldInfo))
  (kwargs acc defaults : list (string * value)) :
  build_defaults fields kwargs acc = Ok defaults ->
  forall key,
    In key (map fst defaults) ->
    In key (map fst acc)
    \/ exists name field v,
        In (name, field) fields
        /\ resolve_field (field_name name) field kwargs = Ok (Some v)
        /\ key = field_name name.
Proof.
  revert acc. induction fields as [|[name field] fields IH]; intros acc; simpl.
  - intros [= ->] key Hin. by left.
  - destruct (resolve_field (field_name name) field kwargs) as [[v|]|e] eqn:Hr;
      simpl; [| |done].
    + intros Hb key Hin. destruct (IH _ Hb key Hin) as [Hacc|Hrest].
      * apply dict_set_keys in Hacc as [->|Hacc]; [|by left].
        right. exists name, field, v. split; [by left|done].
      * right. destruct Hrest as (n & f & x & Hin' & Hx & ->).
        exists n, f, x. split; [by right|done].
    + intros Hb key Hin. destruct (IH _ Hb key Hin) as [Hacc|Hrest]; [by left|].
      right. destruct Hrest as (n & f & x & Hin' & Hx & ->).
      exists n, f, x. split; [by right|done].
Qed.

Lemma resolve_field_unknown_class (name : string) (field : FieldInfo)
  (kwargs : list (string * value)) (cls : string) :
  no_static_default field -> get_adaptor field = None ->
  special_cases name = VNone -> fi_origin field = None ->
  fi_type field = TClass cls -> dict_get "field_type" kwargs = None ->
  resolve_field name field kwargs = Ok None.
Proof.
  intros Hs Ha Hsp Ho Ht Hk. rewrite resolve_field_no_static by done.
  rewrite Ha, Hsp, Ho, Ht. unfold if_not_None.
  rewrite get_default_no_collision; [done|].
  apply multiple_values_none. by intros key [<-|[]].
Qed.

(** X10.  When the loop of [make_default] sets nothing for a field that
    has no static default, and no other field gets a default under its
    name or its external name, [make_default] raises whatever [data] is:
    the field is missing from the provisional instance, which is
    constructed before [data] is merged in. *)
Theorem make_default_unresolved (cls : ModelClass)
  (data : option (list (value * value))) (kwargs : list (string * value))
  (name : string) (field : FieldInfo) :
  In (name, field) (cls_fields cls) ->
  fi_default field = PydanticUndefined ->
  resolve_field (field_name name) field kwargs = Ok None ->
  (forall n f v,
      In (n, f) (cls_fields cls) ->
      resolve_field (field_name n) f kwargs = Ok (Some v) ->
      field_name n <> field_name name /\ field_name n <> name) ->
  exists e, make_default cls data kwargs = Raise e.
Proof.
  intros Hin Hdefault Hnone Hothers. rewrite make_default_unfold.
  destruct (build_defaults (cls_fields cls) kwargs []) as [defaults|e] eqn:Hb;
    [|by exists e].
  assert (Hmissing : forall key,
             key = field_name name \/ key = name -> dict_get key defaults = None).
  { intros key Hkey. apply dict_get_none. intros Hk.
    destruct (build_defaults_keys _ _ _ _ Hb key Hk)
      as [[]|(n & f & v & Hnf & Hv & ->)].
    destruct (Hothers n f v Hnf Hv) as [H1 H2].
    destruct Hkey; congruence. }
  assert (Hinit : init_field defaults (name, field)
                  = Raise (ValidationError name)).
  { unfold init_field. rewrite !Hmissing by auto. by rewrite Hdefault. }
  destruct (mapM_raises (init_field defaults) (cls_fields cls) _ _ Hin Hinit)
    as (y & e' & _ & _ & Hm).
  exists e'. simpl. unfold mix_in, construct. by rewrite Hm.
Qed.

Lemma mapM_app_raise {A B : Type} (f : A -> result B) (l l' : list A)
  (ys : list B) (e : exn) :
  mapM f l = Ok ys ->
  (match l' with [] => True | x :: _ => f x = Raise e end) ->
  l' <> [] -> mapM f (l ++ l') = Raise e.
Proof.
  revert ys. induction l as [|x l IH]; intros ys; simpl.
  - intros _. destruct l' as [|x l']; [done|]. intros Hx _. simpl. by rewrite Hx.
  - destruct (f x) as [y|]; [|done].
    destruct (mapM f l) as [ys'|] eqn:Hl; [|done].
    intros _ Hx Hne. by rewrite (IH ys' eq_refl Hx Hne).
Qed.

Lemma multiple_values_cases (params : list string)
  (kwargs : list (string * value)) :
  multiple_values params kwargs = None
  \/ exists msg, multiple_values params kwargs = Some (TypeError msg).
Proof.
  unfold multiple_values.
  destruct (List.find _ kwargs) as [[key v]|]; [right; by eexists|by left].
Qed.

Lemma mapM_length {A B : Type} (f : A -> result B) (l : list A) (l' : list B) :
  mapM f l = Ok l' -> length l' = length l.
Proof.
  revert l'. induction l as [|x l IH]; intros l'; simpl; [by intros [= <-]|].
  destruct (f x); [|done]. destruct (mapM f l) as [ys|]; [|done].
  intros [= <-]. simpl. f_equal. by apply IH.
Qed.

(** X11.  For a field with no static default, no adaptor and no special
    case.  A list annotation gets a list with one default per type
    argument, the empty list for a list without type arguments, when no
    keyword argument is named [field]; a keyword of that name makes the
    resolution raise [TypeError], and so does, with no such keyword, a type
    argument that is no class when the arguments before it have a default.
    A dict annotation without exactly two type arguments makes the
    resolution raise [ValueError], whatever the name of the field, when no
    keyword argument is named [field] or [name]; a keyword of such a name
    makes it raise [TypeError]. *)
Theorem resolve_field_containers (name : string) (field : FieldInfo)
  (kwargs : list (string * value)) :
  no_static_default field -> get_adaptor field = None ->
  special_cases name = VNone ->
  (fi_origin field = Some OriginList ->
   (dict_get "field" kwargs = None -> fi_args field = [] ->
    resolve_field name field kwargs = Ok (Some (VList [])))
   /\ (forall r, resolve_field name field kwargs = Ok r ->
                 dict_get "field" kwargs = None
                 /\ exists items, r = Some (VList items)
                                  /\ length items = length (fi_args field))
   /\ (forall v, dict_get "field" kwargs = Some v ->
                 resolve_field name field kwargs
                 = Raise (TypeError "got multiple values for argument 'field'"))
   /\ (forall before alias after defaults,
          dict_get "field" kwargs = None ->
          fi_args field = (before ++ ArgAlias alias :: after)%list ->
          mapM (fun type_ => get_default_arg type_ kwargs) before = Ok defaults ->
          exists msg, resolve_field name field kwargs = Raise (TypeError msg)))
  /\ (fi_origin field = Some OriginDict ->
      (dict_get "field" kwargs = None -> dict_get "name" kwargs = None ->
       length (fi_args field) <> 2%nat ->
       resolve_field name field kwargs = Raise (ValueError "unpack"))
      /\ (forall v,
             dict_get "field" kwargs = Some v \/ dict_get "name" kwargs = Some v ->
             exists msg, resolve_field name field kwargs = Raise (TypeError msg))).
Proof.
  intros Hs Ha Hsp. rewrite resolve_field_no_static by done. rewrite Ha, Hsp.
  cbn [is_not_None]. split.
  - intros ->. unfold default_list.
    split; [|split; [|split]].
    + intros Hk ->.
      rewrite (proj2 (multiple_values_none ["field"] kwargs)); [done|].
      by intros key [<-|[]].
    + intros r.
      destruct (multiple_values ["field"] kwargs) as [e|] eqn:Hm; [done|].
      split.
      { apply (proj1 (multiple_values_none ["field"] kwargs) Hm). by left. }
      destruct (mapM _ (fi_args field)) as [items|e] eqn:Hitems; [|done].
      simpl in *. injection H0 as <-. exists items. split; [done|].
      by eapply mapM_length.
    + intros v Hv. by rewrite (multiple_values_one _ _ v Hv).
    + intros before alias after defaults Hk -> Hbefore.
      rewrite (proj2 (multiple_values_none ["field"] kwargs))
        by (by intros key [<-|[]]).
      rewrite (mapM_app_raise _ before (ArgAlias alias :: after) defaults
                 (match multiple_values ["field_type"] kwargs with
                  | Some e => e
                  | None => TypeError "issubclass() arg 1 must be a class"
                  end)); [|done| |done].
      * destruct (multiple_values_cases ["field_type"] kwargs) as [->|[msg ->]];
          by eexists.
      * simpl. unfold not_a_class.
        by destruct (multiple_values ["field_type"] kwargs).
  - intros ->. unfold default_dict. split.
    + intros Hf Hn Hlen.
      rewrite (proj2 (multiple_values_none ["field"; "name"] kwargs)).
      * destruct (fi_args field) as [|k [|v [|x rest]]]; simpl in *; done.
      * intros key [<-|[<-|[]]]; done.
    + intros v [Hv|Hv].
      * destruct (multiple_values_some ["field"; "name"] kwargs "field" v)
          as (key & _ & ->); [simpl; tauto|done|by eexists].
      * destruct (multiple_values_some ["field"; "name"] kwargs "name" v)
          as (key & _ & ->); [simpl; tauto|done|by eexists].
Qed.

(** ** get_archive_metadata *)

(** Induction on a model class, with the property at hand for the model
    classes of its fields. *)
Lemma ModelClass_nested_ind (P : ModelClass -> Prop) :
  (forall name tagged fields,
      Forall (fun nf => forall m, fi_type (snd nf) = TModel m -> P m) fields ->
      P (MkModel name tagged fields)) ->
  forall cls, P cls.
Proof.
  intros Hstep. fix IH 1. intros [name tagged fields]. apply Hstep.
  induction fields as [|[n [d o a t]] fields IHfields]; constructor.
  - simpl. intros m Hm. destruct t; try discriminate Hm.
    injection Hm as <-. apply IH.
  - exact IHfields.
Qed.

Section Archive_properties.
Context `{ArchiveInfo}.

Lemma get_archive_metadata_loop (fields : list (string * FieldInfo))
  (metadata : list (string * Archives)) :
  (fix loop (fields : list (string * FieldInfo))
     (metadata : list (string * Archives)) {struct fields}
     : list (string * Archives) :=
     match fields with
     | [] => metadata
     | (name, field) :: fields' =>
         let name := field_name name in
         let archive := get_archive field in
         if has_info archive
         then loop fields' (dict_set name (ArchiveOf archive) metadata)
         else
           match field with
           | MkFieldInfo _ _ _ (TModel field_type) =>
               let archive := get_archive_metadata field_type in
               match archive with
               | [] => loop fields' metadata
               | _ :: _ =>
                   loop fields' (dict_set name (ArchivesOf archive) metadata)
               end
           | _ => loop fields' metadata
           end
     end) fields metadata
  = archive_loop fields metadata.
Proof.
  revert metadata.
  induction fields as [|[name [d o a t]] fields IH]; intros metadata; [done|].
  simpl. destruct (has_info _); [apply IH|].
  destruct t; try apply IH.
  destruct (get_archive_metadata m); apply IH.
Qed.

Lemma get_archive_metadata_unfold (cls : ModelClass) :
  get_archive_metadata cls = archive_loop (cls_fields cls) [].
Proof. destruct cls as [name tagged fields]. apply get_archive_metadata_loop. Qed.

Lemma archive_loop_nodup (fields : list (string * FieldInfo))
  (metadata : list (string * Archives)) :
  NoDup (map fst metadata) -> NoDup (map fst (archive_loop fields metadata)).
Proof.
  revert metadata.
  induction fields as [|[name field] fields IH]; intros metadata Hnd; [done|].
  simpl. destruct (has_info _); [by apply IH, dict_set_nodup|].
  destruct (fi_type field); try by apply IH.
  destruct (get_archive_metadata m); [by apply IH|by apply IH, dict_set_nodup].
Qed.

Lemma archive_loop_keys (fields : list (string * FieldInfo))
  (metadata : list (string * Archives)) (key : string) :
  In key (map fst (archive_loop fields metadata)) ->
  In key (map fst metadata)
  \/ exists name, In name (map fst fields) /\ key = field_name name.
Proof.
  revert metadata.
  induction fields as [|[name field] fields IH]; intros metadata; [by left|].
  assert (Hset : forall a,
             In key (map fst (archive_loop fields
                                (dict_set (field_name name) a metadata))) ->
             In key (map fst metadata)
             \/ exists n, In n (map fst ((name, field) :: fields))
                          /\ key = field_name n).
  { intros a Hin. destruct (IH _ Hin) as [Hacc|(n & Hn & ->)].
    - apply dict_set_keys in Hacc as [->|Hacc]; [|by left].
      right. exists name. split; [by left|done].
    - right. exists n. split; [by right|done]. }
  assert (Hskip : In key (map fst (archive_loop fields metadata)) ->
                  In key (map fst metadata)
                  \/ exists n, In n (map fst ((name, field) :: fields))
                               /\ key = field_name n).
  { intros Hin. destruct (IH _ Hin) as [Hacc|(n & Hn & ->)]; [by left|].
    right. exists n. split; [by right|done]. }
  simpl. destruct (has_info _); [apply Hset|].
  destruct (fi_type field); try apply Hskip.
  destruct (get_archive_metadata m); [apply Hskip|apply Hset].
Qed.

Lemma archive_loop_informative (fields : list (string * FieldInfo))
  (metadata : list (string * Archives)) :
  Forall (fun nf => forall m,
              fi_type (snd nf) = TModel m ->
              Forall (fun kv => informative (snd kv) = true)
                     (get_archive_metadata m)) fields ->
  Forall (fun kv => informative (snd kv) = true) metadata ->
  Forall (fun kv => informative (snd kv) = true) (archive_loop fields metadata).
Proof.
  intros Hsub. revert metadata.
  induction Hsub as [|[name field] fields Hm _ IH]; intros metadata Hacc; [done|].
  simpl. destruct (has_info (get_archive field)) eqn:Hinfo.
  - apply IH.
    by apply (dict_set_values (fun a => informative a = true)).
  - destruct (fi_type field) eqn:Ht; try by apply IH.
    specialize (Hm m Ht).
    destruct (get_archive_metadata m) as [|kv sub] eqn:Hsubm; [by apply IH|].
    apply IH. apply (dict_set_values (fun a => informative a = true)); [|done].
    simpl. apply Forall_cons in Hm as [Hkv Hrest].
    destruct kv as [k a]. simpl in Hkv. rewrite Hkv. simpl.
    apply forallb_forall. intros [k' a'] Hin.
    rewrite Forall_forall in Hrest. apply (Hrest (k', a')).
    by apply list_elem_of_In.
Qed.

(** X12.  The metadata [get_archive_metadata] returns has pairwise
    distinct keys, each the external name of a field of the class, and
    holds nothing empty: every archive in it has information and every
    nested metadata has an entry, at every depth. *)
Theorem get_archive_metadata_informative (cls : ModelClass) :
  NoDup (map fst (get_archive_metadata cls))
  /\ (forall key,
         In key (map fst (get_archive_metadata cls)) ->
         exists name, In name (map fst (cls_fields cls)) /\ key = field_name name)
  /\ Forall (fun kv => informative (snd kv) = true) (get_archive_metadata cls).
Proof.
  split; [|split].
  - rewrite get_archive_metadata_unfold. apply archive_loop_nodup. constructor.
  - intros key Hin. rewrite get_archive_metadata_unfold in Hin.
    by destruct (archive_loop_keys _ _ _ Hin) as [[]|Hname].
  - induction cls as [name tagged fields IH] using ModelClass_nested_ind.
    rewrite get_archive_metadata_unfold. simpl.
    by apply archive_loop_informative.
Qed.

Lemma dict_set_not_nil {V : Type} (k : string) (v : V) (d : list (string * V)) :
  dict_set k v d <> [].
Proof. destruct d as [|[k' v'] d]; simpl; [done|]. by destruct (String.eqb k k'). Qed.

Lemma archive_loop_not_nil (fields : list (string * FieldInfo))
  (metadata : list (string * Archives)) :
  metadata <> [] -> archive_loop fields metadata <> [].
Proof.
  revert metadata.
  induction fields as [|[name field] fields IH]; intros metadata Hne; [done|].
  simpl. destruct (has_info _); [apply IH, dict_set_not_nil|].
  destruct (fi_type field); try by apply IH.
  destruct (get_archive_metadata m); [by apply IH|apply IH, dict_set_not_nil].
Qed.

(** X13.  [get_archive_metadata] returns the empty dict exactly for a
    class none of whose fields has archive information, at any depth of
    nested models. *)
Theorem get_archive_metadata_empty (cls : ModelClass) :
  get_archive_metadata cls = [] <-> unannotated cls = true.
Proof.
  induction cls as [name tagged fields IH] using ModelClass_nested_ind.
  rewrite get_archive_metadata_unfold. simpl.
  induction IH as [|[n [d o a t]] fields Hm _ IHfields]; [done|].
  simpl in *. destruct (has_info (get_archive _)) eqn:Hinfo; simpl.
  - split; [|done]. intros Hnil. exfalso.
    revert Hnil. by apply archive_loop_not_nil.
  - destruct t; try exact IHfields.
    specialize (Hm m eq_refl).
    destruct (get_archive_metadata m) as [|kv sub] eqn:Hsub.
    + destruct (unannotated m); [exact IHfields|].
      destruct Hm as [Hm _]. by specialize (Hm eq_refl).
    + destruct (unannotated m).
      * destruct Hm as [_ Hm]. by specialize (Hm eq_refl).
      * split; [|done]. intros Hnil. exfalso.
        revert Hnil. by apply archive_loop_not_nil.
Qed.

End Archive_properties.

End Further_properties.

(** ** Round trip through the tree *)

(** Induction on a model class, with the property at hand for the model
    classes of its fields and of the type arguments of their annotations. *)
Lemma ModelClass_schema_ind (P : ModelClass -> Prop) :
  (forall name tagged fields,
      Forall (fun nf =>
                (forall m, fi_type (snd nf) = TModel m -> P m)
                /\ Forall (fun a => forall m, a = ArgClass (TModel m) -> P m)
                          (fi_args (snd nf))) fields ->
      P (MkModel name tagged fields)) ->
  forall cls, P cls.
Proof.
  intros Hstep. fix IH 1. intros [name tagged fields]. apply Hstep.
  induction fields as [|[n [d o args t]] fields IHfields]; constructor.
  - simpl. split.
    + intros m Hm. destruct t; try discriminate Hm.
      injection Hm as <-. apply IH.
    + induction args as [|a args IHargs]; constructor.
      * intros m Hm. destruct a as [t'|]; [|discriminate Hm].
        destruct t'; try discriminate Hm. injection Hm as <-. apply IH.
      * exact IHargs.
  - exact IHfields.
Qed.

Lemma serialized_model_free `{Collaborators} (v : value) :
  serialized v = true -> tagged_free v = true -> model_free v = true.
Proof.
  induction v as [| | | | cls member val _ | items IH | items IH
                  | cls tagged fields _ | ] using value_nested_ind;
    simpl; try done.
  - intros Hs Ht. induction IH as [|x items Hx _ IHitems]; [done|].
    simpl in *. apply andb_true_iff in Hs as [Hsx Hs].
    apply andb_true_iff in Ht as [Htx Ht]. by rewrite Hx, IHitems.
  - intros Hs Ht. induction IH as [|[k x] items Hx _ IHitems]; [done|].
    simpl in *. apply andb_true_iff in Hs as [Hsx Hs].
    apply andb_true_iff in Ht as [Htx Ht]. by rewrite Hx, IHitems.
  - intros ->. done.
Qed.

Section Round_trip.
Local Existing Instance Reference.collaborators.
Local Open Scope result_scope.
Import Example.

Lemma alias_idempotent (n : string) :
  Reference.alias (Reference.alias n) = Reference.alias n.
Proof.
  unfold Reference.alias. destruct (String.eqb n "pass_") eqn:E; [done|].
  by rewrite E.
Qed.

Lemma check_type_model (m : ModelClass) (v : value) :
  Reference.check_type (TModel m) v
  = match
      rbind
        match v with
        | VModel c _ items =>
            if String.eqb c (cls_name m) then Ok items
            else Raise (ValidationError "")
        | VDict d => keywords d
        | _ => Raise (ValidationError "")
        end
        (construct m)
    with
    | Ok items => Some (instance m items)
    | Raise _ => None
    end.
Proof. reflexivity. Qed.

(** What a valid instance with unambiguous items holds for a declared
    field is a value that the validator of the field returns as it is. *)
Lemma valid_declared (cls : ModelClass) (items : list (string * value)) :
  construct cls items = Ok items ->
  unambiguous items = true ->
  exists declared,
    items = (declared ++ List.filter (fun '(key, _) => is_extra cls key) items)%list
    /\ Forall2 (fun nf nv =>
                  fst nv = fst nf /\ validate (snd nf) (snd nv) = Some (snd nv))
               (cls_fields cls) declared.
Proof.
  intros Hvalid Hnd. apply bool_decide_eq_true in Hnd.
  destruct (construct_fixed cls items Hvalid) as (declared & Hitems & Hinit).
  exists declared. split; [done|].
  apply (Forall2_impl_In _ _ _ _ Hinit).
  intros [n f] [n' x] _ Hin Hnf.
  pose proof (init_field_name _ _ _ Hnf) as Hn. simpl in Hn. subst n'.
  split; [done|]. cbn [fst snd].
  assert (Hx : In (n, x) items).
  { rewrite Hitems. apply in_or_app. by left. }
  assert (Hget : dict_get n items = Some x).
  { apply dict_get_nodup; [|done]. by eapply NoDup_map_fst. }
  unfold init_field, validated in Hnf.
  destruct (dict_get (field_name n) items) as [v|] eqn:Halias.
  - assert (Heq : (field_name n, v) = (n, x)).
    { apply (NoDup_map_inj (fun nv => field_name (fst nv)) items); try done.
      - by apply dict_get_In.
      - simpl. apply alias_idempotent. }
    injection Heq as _ ->.
    destruct (validate f x) as [x'|]; [|done]. by injection Hnf as ->.
  - rewrite Hget in Hnf.
    destruct (validate f x) as [x'|]; [|done]. by injection Hnf as ->.
Qed.

Lemma check_type_round_trip (t : pytype) (v : value) :
  (forall m, t = TModel m -> round_trips m) ->
  Reference.check_type t v = Some v -> kept_type t v = true ->
  Reference.check_type t (recurse_tree v) = Some v.
Proof.
  intros IH Hv Hk. destruct t as [| | | |n first rest|m|n].
  - destruct v; done.
  - destruct v; done.
  - destruct v; done.
  - destruct v; done.
  - simpl in Hk. by rewrite serialized_fixed.
  - rewrite check_type_model in Hv.
    destruct v as [| | | | | |d|c tagged its|]; try discriminate Hv.
    + destruct (rbind (keywords d) (construct m)); discriminate Hv.
    + destruct (String.eqb c (cls_name m)); [|discriminate Hv].
      cbn [rbind] in Hv.
      destruct (construct m its) as [its'|] eqn:Hc; [|discriminate Hv].
      injection Hv as Hname Htagged ->.
      destruct tagged.
      * rewrite check_type_model. simpl. rewrite <- Hname, String.eqb_refl.
        cbn [rbind]. rewrite Hc. unfold instance. by rewrite Hname, Htagged.
      * rewrite recurse_tree_model, check_type_model. unfold py_dict.
        rewrite keywords_py_dict. cbn [rbind].
        rewrite (IH m eq_refl its Hc Hk).
        unfold instance. by rewrite Hname, Htagged.
  - destruct v; done.
Qed.

Lemma check_field_round_trip (field : FieldInfo) (v : value) :
  (forall m, fi_type field = TModel m -> round_trips m) ->
  Forall (fun a => forall m, a = ArgClass (TModel m) -> round_trips m)
         (fi_args field) ->
  Reference.check_field field v = Some v -> kept_field field v = true ->
  Reference.check_field field (recurse_tree v) = Some v.
Proof.
  destruct field as [d o args t]. cbn [fi_type fi_args]. intros IHt IHargs.
  destruct o as [[| | |]|]; simpl;
    try (by apply check_type_round_trip).
  - (* Dict[K, V] *)
    destruct args as [|[k|] [|[a|] [|]]]; try done.
    destruct v as [| | | | | |its| |]; try done.
    destruct (mapM _ its) as [ys|] eqn:Hm; [|done].
    intros [= ->] Hk. apply mapM_fixed in Hm. simpl.
    erewrite mapM_map_fixed; [done|].
    apply Forall_forall. intros [key x] Hin.
    rewrite Forall_forall in Hm. specialize (Hm _ Hin). simpl in Hm.
    destruct (Reference.check_type k key) as [key'|] eqn:Hkey; [|done].
    destruct (Reference.check_type a x) as [y|] eqn:Hx; [|done].
    injection Hm as -> ->.
    rewrite (check_type_round_trip a x); [done| |done|].
    + intros m ->. apply Forall_cons in IHargs as [_ IHargs].
      apply Forall_cons in IHargs as [IHa _]. by apply IHa.
    + rewrite forallb_forall in Hk.
      apply (Hk (key, x)). by apply list_elem_of_In.
  - (* List[T] *)
    destruct args as [|[a|] [|]]; try done.
    destruct v as [| | | | |its| | |]; try done.
    destruct (mapM _ its) as [ys|] eqn:Hm; [|done].
    intros [= ->] Hk. apply mapM_fixed in Hm. simpl.
    erewrite mapM_map_fixed; [done|].
    apply Forall_forall. intros x Hin.
    rewrite Forall_forall in Hm. specialize (Hm _ Hin). simpl in Hm.
    destruct (Reference.check_type a x) as [y|] eqn:Hx; [|done].
    injection Hm as ->.
    rewrite (check_type_round_trip a x); [done| |done|].
    + intros m ->. apply Forall_cons in IHargs as [IHa _]. by apply IHa.
    + rewrite forallb_forall in Hk. apply Hk. by apply list_elem_of_In.
Qed.

Lemma round_trips_all (cls : ModelClass) : round_trips cls.
Proof.
  induction cls as [name tagged fields IH] using ModelClass_schema_ind.
  intros items Hvalid Hkept.
  set (cls := MkModel name tagged fields) in *.
  cbn [kept_model cls] in Hkept. fold cls in Hkept.
  apply andb_true_iff in Hkept as [Hkept Hfields].
  apply andb_true_iff in Hkept as [Hnd Hextras].
  destruct (valid_declared cls items Hvalid Hnd) as (declared & Hitems & Hdecl).
  apply bool_decide_eq_true in Hnd.
  set (extras := List.filter (fun '(key, _) => is_extra cls key) items) in *.
  assert (Hgoal : construct cls (to_asdf_tree (declared ++ extras))
                  = Ok (declared ++ extras)%list); [|by rewrite <- Hitems in Hgoal].
  apply construct_of_tree.
  - apply (Forall2_impl_In _ _ _ _ Hdecl).
    intros [n f] [n' x] Hnf Hnx [Hn Hx]. simpl in Hn, Hx. subst n'.
    split; [done|]. cbn [fst snd].
    rewrite Forall_forall in IH.
    destruct (IH (n, f) (proj2 (list_elem_of_In _ _) Hnf)) as [IHt IHargs].
    apply check_field_round_trip; [done|done|done|].
    rewrite forallb_forall in Hfields. specialize (Hfields (n, f) Hnf).
    simpl in Hfields.
    rewrite (dict_get_nodup n x items) in Hfields; [done| |].
    + by eapply NoDup_map_fst.
    + rewrite Hitems. apply in_or_app. by left.
  - apply Forall_forall. intros [key x] Hin.
    apply list_elem_of_In, filter_In in Hin as [Hin Hextra].
    rewrite forallb_forall in Hextras. specialize (Hextras (key, x) Hin).
    unfold plain_extra in Hextras. cbn [fst snd] in *.
    rewrite Hextra in Hextras. simpl in Hextras.
    apply andb_true_iff in Hextras as [Hname Hser].
    apply String.eqb_eq in Hname.
    split; [done|]. split; [done|]. by apply serialized_fixed.
  - by rewrite <- Hitems.
Qed.

Lemma check_type_flattens (t : pytype) (v : value) :
  (forall m, t = TModel m -> flattens m) ->
  Reference.check_type t v = Some v -> kept_type t v = true ->
  tagged_free v = true -> model_free (recurse_tree v) = true.
Proof.
  intros IH Hv Hk Ht. destruct t as [| | | |n first rest|m|n].
  - destruct v; done.
  - destruct v; done.
  - destruct v; done.
  - destruct v; done.
  - simpl in Hk. rewrite serialized_fixed by done.
    by apply serialized_model_free.
  - rewrite check_type_model in Hv.
    destruct v as [| | | | | |d|c tagged its|]; try discriminate Hv.
    + destruct (rbind (keywords d) (construct m)); discriminate Hv.
    + destruct (String.eqb c (cls_name m)); [|discriminate Hv].
      cbn [rbind] in Hv.
      destruct (construct m its) as [its'|] eqn:Hc; [|discriminate Hv].
      injection Hv as Hname Htagged ->.
      simpl in Ht. apply andb_true_iff in Ht as [Htag Ht].
      destruct tagged; [done|].
      rewrite recurse_tree_model. unfold py_dict. simpl.
      apply forallb_forall. intros [k x] Hin.
      apply in_map_iff in Hin as ([n' y] & [= <- <-] & Hin).
      pose proof (IH m eq_refl its Hc Hk Ht) as Hall.
      rewrite Forall_forall in Hall.
      apply (Hall (n', y)). by apply list_elem_of_In.
  - destruct v; done.
Qed.

Lemma check_field_flattens (field : FieldInfo) (v : value) :
  (forall m, fi_type field = TModel m -> flattens m) ->
  Forall (fun a => forall m, a = ArgClass (TModel m) -> flattens m)
         (fi_args field) ->
  Reference.check_field field v = Some v -> kept_field field v = true ->
  tagged_free v = true -> model_free (recurse_tree v) = true.
Proof.
  destruct field as [d o args t]. cbn [fi_type fi_args]. intros IHt IHargs.
  destruct o as [[| | |]|]; simpl;
    try (by apply check_type_flattens).
  - (* Dict[K, V] *)
    destruct args as [|[k|] [|[a|] [|]]]; try done.
    destruct v as [| | | | | |its| |]; try done.
    destruct (mapM _ its) as [ys|] eqn:Hm; [|done].
    intros [= ->] Hk Ht. apply mapM_fixed in Hm. simpl. simpl in Ht.
    apply forallb_forall. intros [key y] Hin.
    apply in_map_iff in Hin as ([key' x] & [= <- <-] & Hin).
    rewrite Forall_forall in Hm.
    specialize (Hm _ (proj2 (list_elem_of_In _ _) Hin)). simpl in Hm.
    destruct (Reference.check_type k key') as [key''|] eqn:Hkey; [|done].
    destruct (Reference.check_type a x) as [y|] eqn:Hx; [|done].
    injection Hm as -> ->.
    apply (check_type_flattens a x); [|done| |].
    + intros m ->. apply Forall_cons in IHargs as [_ IHargs].
      apply Forall_cons in IHargs as [IHa _]. by apply IHa.
    + rewrite forallb_forall in Hk. apply (Hk (key', x) Hin).
    + rewrite forallb_forall in Ht. apply (Ht (key', x) Hin).
  - (* List[T] *)
    destruct args as [|[a|] [|]]; try done.
    destruct v as [| | | | |its| | |]; try done.
    destruct (mapM _ its) as [ys|] eqn:Hm; [|done].
    intros [= ->] Hk Ht. apply mapM_fixed in Hm. simpl. simpl in Ht.
    apply forallb_forall. intros y Hin.
    apply in_map_iff in Hin as (x & <- & Hin).
    rewrite Forall_forall in Hm.
    specialize (Hm _ (proj2 (list_elem_of_In _ _) Hin)). simpl in Hm.
    destruct (Reference.check_type a x) as [y|] eqn:Hx; [|done].
    injection Hm as ->.
    apply (check_type_flattens a x); [|done| |].
    + intros m ->. apply Forall_cons in IHargs as [IHa _]. by apply IHa.
    + rewrite forallb_forall in Hk. by apply Hk.
    + rewrite forallb_forall in Ht. by apply Ht.
Qed.

Lemma flattens_all (cls : ModelClass) : flattens cls.
Proof.
  induction cls as [name tagged fields IH] using ModelClass_schema_ind.
  intros items Hvalid Hkept Hfree.
  set (cls := MkModel name tagged fields) in *.
  cbn [kept_model cls] in Hkept. fold cls in Hkept.
  apply andb_true_iff in Hkept as [Hkept Hfields].
  apply andb_true_iff in Hkept as [Hnd Hextras].
  destruct (valid_declared cls items Hvalid Hnd) as (declared & Hitems & Hdecl).
  apply bool_decide_eq_true in Hnd.
  rewrite to_asdf_tree_items.
  apply (dict_of_items_values (fun x => model_free x = true)).
  apply Forall_forall. intros [k y] Hin.
  apply list_elem_of_In, in_map_iff in Hin as ([n x] & [= <- <-] & Hin).
  cbn [snd].
  assert (Hx : tagged_free x = true).
  { rewrite forallb_forall in Hfree. apply (Hfree (n, x) Hin). }
  pose proof Hin as Hin'. rewrite Hitems in Hin'.
  apply in_app_or in Hin' as [Hd|He].
  - destruct (Forall2_In_r _ _ _ _ Hdecl Hd) as ([n' f] & Hnf & Hn & Hv).
    simpl in Hn, Hv. subst n'.
    rewrite Forall_forall in IH.
    destruct (IH (n, f) (proj2 (list_elem_of_In _ _) Hnf)) as [IHt IHargs].
    apply (check_field_flattens f x); [done|done|done| |done].
    rewrite forallb_forall in Hfields. specialize (Hfields (n, f) Hnf).
    simpl in Hfields.
    rewrite (dict_get_nodup n x items) in Hfields; [done| |done].
    by eapply NoDup_map_fst.
  - apply filter_In in He as [_ Hextra].
    rewrite forallb_forall in Hextras. specialize (Hextras (n, x) Hin).
    unfold plain_extra in Hextras. cbn [fst snd] in *.
    rewrite Hextra in Hextras. simpl in Hextras.
    apply andb_true_iff in Hextras as [_ Hser].
    rewrite serialized_fixed by done. by apply serialized_model_free.
Qed.




End Round_trip.

(** ** mk_basic_meta *)

Lemma mk_basic_meta_items (NOFN NOSTR : value) (kwargs : list (string * value)) :
  mk_basic_meta NOFN NOSTR kwargs
  = [("calibration_software_name",
      kwargs_get kwargs "calibration_software_name" (VStr "RomanCAL"));
     ("calibration_software_version",
      kwargs_get kwargs "calibration_software_version" (VStr "9.9.0"));
     ("product_type", kwargs_get kwargs "product_type" (VStr "l2"));
     ("filename", kwargs_get kwargs "filename" NOFN);
     ("file_date", kwargs_get kwargs "file_date" default_file_date);
     ("model_type", kwargs_get kwargs "model_type" NOSTR);
     ("origin", kwargs_get kwargs "origin" (VStr "STSCI/SOC"));
     ("prd_version", kwargs_get kwargs "prd_version" (VStr "8.8.8"));
     ("sdf_software_version",
      kwargs_get kwargs "sdf_software_version" (VStr "7.7.7"));
     ("telescope", kwargs_get kwargs "telescope" (VStr "ROMAN"))].
Proof. reflexivity. Qed.

(** X14.  Whatever keywords it is given, [mk_basic_meta] returns a dict
    with the same ten keys in the same order; a keyword among the ten
    is the value under its key, and a keyword that is not among them is
    dropped. *)
Theorem mk_basic_meta_keys (NOFN NOSTR : value) (kwargs : list (string * value)) :
  map fst (mk_basic_meta NOFN NOSTR kwargs) = basic_meta_keys
  /\ (forall key v,
         In key basic_meta_keys -> dict_get key kwargs = Some v ->
         dict_get key (mk_basic_meta NOFN NOSTR kwargs) = Some v)
  /\ (forall key,
         ~ In key basic_meta_keys ->
         dict_get key (mk_basic_meta NOFN NOSTR kwargs) = None).
Proof.
  split; [reflexivity|]. split.
  - intros key v Hin Hv. rewrite mk_basic_meta_items.
    unfold basic_meta_keys in Hin. simpl in Hin.
    repeat (destruct Hin as [<-|Hin];
            [simpl; unfold kwargs_get; by rewrite Hv|]).
    done.
  - intros key Hout. apply dict_get_none. by rewrite mk_basic_meta_items.
Qed.

(** X15.  [mk_basic_meta] reads nothing but the ten keywords, and given
    the dict it returned it returns that dict again. *)
Theorem mk_basic_meta_idempotent (NOFN NOSTR : value)
  (kwargs : list (string * value)) :
  mk_basic_meta NOFN NOSTR (mk_basic_meta NOFN NOSTR kwargs)
  = mk_basic_meta NOFN NOSTR kwargs
  /\ (forall kwargs',
         (forall key, In key basic_meta_keys ->
                      dict_get key kwargs' = dict_get key kwargs) ->
         mk_basic_meta NOFN NOSTR kwargs' = mk_basic_meta NOFN NOSTR kwargs).
Proof.
  split.
  - rewrite (mk_basic_meta_items NOFN NOSTR (mk_basic_meta NOFN NOSTR kwargs)).
    rewrite !mk_basic_meta_items. reflexivity.
  - intros kwargs' Hsame. rewrite !mk_basic_meta_items. unfold kwargs_get.
    rewrite !Hsame by (unfold basic_meta_keys; simpl; tauto). reflexivity.
Qed.

(** ** Instances of the further properties *)

Section Further_instances.
Local Existing Instance Reference.collaborators.
Local Existing Instance Example_further.type_tests.
Import Example Example_further.

Lemma to_asdf_tree_idempotent_witness :
  serialized (recurse_tree meta) = true
  /\ recurse_tree (recurse_tree meta) = recurse_tree meta.
Proof. apply (proj1 (proj2 (to_asdf_tree_idempotent meta))). reflexivity. Defined.

Lemma to_flat_dict_entries_witness :
  Forall (fun kv => is_ndarray (snd kv) = false) (to_flat_dict image false).
Proof.
  apply (proj2 (proj2 (proj2 (to_flat_dict_entries image false)))).
  reflexivity.
Defined.

Lemma setitem_then_getitem_witness :
  __contains__ a "nickname" (snd (__setitem__ a "nickname" (VInt 9) world)) = true
  /\ forall item,
      __contains__ a item
        (snd (__setitem__ a "_validate_setitem" (VBool false) world))
      = __contains__ a item world.
Proof.
  split.
  - apply (proj2 (setitem_then_getitem a "nickname" (VInt 9) world));
      reflexivity.
  - apply (proj2 (setitem_then_getitem a "_validate_setitem" (VBool false)
                    world)); reflexivity.
Defined.


Lemma setitem_effects_witness :
  validation_enabled
    (snd (__setitem__ a "count" (VStr "abc") (pause_enter a unvalidated))) a.
Proof.
  apply (proj1 (proj2 (proj2 (setitem_effects a "count" (VStr "abc")
                                (pause_enter a unvalidated))))).
  reflexivity.
Defined.


Lemma make_default_unresolved_witness :
  exists e, make_default Unresolved None [] = Raise e.
Proof.
  apply (make_default_unresolved Unresolved None [] "wcs"
           (MkFieldInfo PydanticUndefined None [] (TClass "gwcs.WCS"))).
  - simpl. tauto.
  - reflexivity.
  - reflexivity.
  - intros n f v [Hnf|[Hnf|[]]] Hv; injection Hnf as <- <-.
    + split; discriminate.
    + discriminate Hv.
Defined.

Lemma resolve_field_containers_witness :
  resolve_field "tags" bare_list [] = Ok (Some (VList []))
  /\ resolve_field "table" bare_dict [] = Raise (ValueError "unpack")
  /\ resolve_field "tags" tags_field [("field", VNone)]
     = Raise (TypeError "got multiple values for argument 'field'")
  /\ exists msg, resolve_field "patterns" list_of_lists [] = Raise (TypeError msg).
Proof.
  split; [|split; [|split]].
  - destruct (resolve_field_containers "tags" bare_list []) as [Hlist _];
      [by left|reflexivity|reflexivity|].
    apply Hlist; reflexivity.
  - destruct (resolve_field_containers "table" bare_dict []) as [_ Hdict];
      [by left|reflexivity|reflexivity|].
    apply Hdict; [reflexivity|reflexivity|reflexivity|discriminate].
  - destruct (resolve_field_containers "tags" tags_field [("field", VNone)])
      as [Hlist _]; [by left|reflexivity|reflexivity|].
    apply (proj1 (proj2 (proj2 (Hlist eq_refl))) VNone). reflexivity.
  - destruct (resolve_field_containers "patterns" list_of_lists [])
      as [Hlist _]; [by left|reflexivity|reflexivity|].
    apply (proj2 (proj2 (proj2 (Hlist eq_refl))) [] "List[int]" [] []);
      reflexivity.
Defined.

End Further_instances.
